(** * Execution and risk-management models of the algorithm framework

    A shallow embedding of

    - [Algorithm.Framework/Risk/MaximumDrawdownPercentPerSecurity.py]
      (class [MaximumDrawdownPercentPerSecurity]: [__init__], [ManageRisk],
      [OnSecuritiesChanged]) and
    - [Algorithm.Framework/Execution/ImmediateExecutionModel.py]
      (class [ImmediateExecutionModel]: [Execute], [OnSecuritiesChanged]),
    - [Algorithm.Python/OptionChainProviderAlgorithm.py]
      (class [OptionChainProviderAlgorithm]: [OnData]),

    together with the properties of the two models and of the algorithm.

    Numbers.  Quantities, prices and profit percentages are Python floats.
    A finite float is a rational number, and rationals ([Q]) carry them:
    [abs], unary [-], [<] and [!= 0] are exact on floats and are those of
    [Q], numeric equality being [Qeq] ([==]).  The sum and the difference
    of two floats are rounded; [+] and [-] are therefore not those of [Q]
    but the operations of an [Arithmetic], of which nothing is assumed but
    that the result depends on the values of the operands.  [binary64] is
    the arithmetic of Python's floats, with the rounding of the Standard
    Library's [SpecFloat]; infinities and NaN are outside the model.

    The engine.  The [algorithm] object the two models receive belongs to
    the host engine.  Of it the models use: [algorithm.Securities] (a
    dictionary from symbol to security, enumerated as key/value pairs and
    indexed by symbol), [algorithm.Transactions.GetOpenOrders(symbol)] and
    [algorithm.MarketOrder(symbol, quantity)].  The first two are read
    accesses and are modelled on a record; what a submitted market order
    does to the engine's state is not in the models' hands and stays a
    parameter ([MarketOrder], section [Execution]). *)

From Stdlib Require Import QArith Qabs Lqa SpecFloat.
From stdpp Require Import gmap strings list fin_maps sorting.

Set Default Proof Using "Type".

(** ** The engine's data, as the models read it *)

(** A symbol identifies a tradable security; it is the join key between
  securities, open orders and targets. *)
Abbreviation Symbol := string.

Module SecurityHolding.
Record t := mk { Quantity : Q; UnrealizedProfitPercent : Q }.
End SecurityHolding.

Module Security.
Record t := mk {
  Symbol : string;
  Invested : bool;
  Holdings : SecurityHolding.t
}.
End Security.

Module Order.
Record t := mk { Symbol : string; Quantity : Q }.
End Order.

Module PortfolioTarget.
(** [PortfolioTarget(symbol, quantity)] *)
Record t := mk { Symbol : string; Quantity : Q }.
End PortfolioTarget.

(** [algorithm]: the securities dictionary in its enumeration order (a
  list of key/value pairs) and the open orders of the transaction
  manager. *)
Record QCAlgorithm := mkAlgorithm {
Securities : list (Symbol * Security.t);
Transactions : list Order.t
}.

(** [algorithm.Securities[symbol]]: the value stored under the key, or a
  [KeyError] ([None]) when the key is absent. *)
Fixpoint Securities_getitem (d : list (Symbol * Security.t)) (symbol : Symbol)
: option Security.t :=
match d with
| [] => None
| (k, v) :: d' =>
    if decide (k = symbol) then Some v else Securities_getitem d' symbol
end.

(** [algorithm.Transactions.GetOpenOrders(symbol)]: the open orders of one
  symbol, in the engine's order. *)
Definition GetOpenOrders (algorithm : QCAlgorithm) (symbol : Symbol) : list Order.t :=
filter (λ x, Order.Symbol x = symbol) (Transactions algorithm).

(** Python's [x + y] and [x - y] on floats. *)
Class Arithmetic := {
  fadd : Q → Q → Q;
  fsub : Q → Q → Q;
  fadd_compat : ∀ x x' y y', (x == x')%Q → (y == y')%Q → (fadd x y == fadd x' y')%Q;
  fsub_compat : ∀ x x' y y', (x == x')%Q → (y == y')%Q → (fsub x y == fsub x' y')%Q
}.

(** The binary64 value of a rational that is one, and back. *)
Definition to_binary64 (x : Q) : spec_float :=
  binary_normalize 53 1024 (Qnum (Qred x)) (- Z.log2 (Zpos (Qden (Qred x)))) false.

Definition of_binary64 (f : spec_float) : Q :=
  match f with
  | S754_finite s m e =>
      match e with
      | Zneg p => Qred (cond_Zopp s (Zpos m) # Pos.pow 2 p)
      | _ => inject_Z (cond_Zopp s (Zpos m) * 2 ^ e)
      end
  | _ => 0%Q
  end.

(** IEEE 754 addition and subtraction, rounding to nearest, ties to even. *)
Definition binary64_add (x y : Q) : Q :=
  of_binary64 (SFadd 53 1024 (to_binary64 x) (to_binary64 y)).

Definition binary64_sub (x y : Q) : Q :=
  of_binary64 (SFsub 53 1024 (to_binary64 x) (to_binary64 y)).

(** The arithmetic of Python's floats.  An overflow has no value in [Q];
  the instance is meant where the results are finite. *)
Definition binary64 : Arithmetic.
Proof.
refine {| fadd := binary64_add; fsub := binary64_sub |}.
- intros x x' y y' Hx Hy. unfold binary64_add, to_binary64.
  rewrite (Qred_complete _ _ Hx), (Qred_complete _ _ Hy). reflexivity.
- intros x x' y y' Hx Hy. unfold binary64_sub, to_binary64.
  rewrite (Qred_complete _ _ Hx), (Qred_complete _ _ Hy). reflexivity.
Defined.

(** Python's [sum] over a list: a left fold of [+] from [0], each addition
  rounded (the interpreters up to CPython 3.11; from 3.12 on [sum]
  compensates the rounding of float additions, which can change the last
  bits of a sum of several open orders). *)
Definition pysum `{Arithmetic} (l : list Q) : Q := fold_left fadd l 0%Q.

(** Python's [a < b] and [a != 0] on numbers. *)
#[global] Instance Qlt_decision (x y : Q) : Decision (x < y)%Q.
Proof.
destruct (Qlt_le_dec x y) as [H | H];
  [left; exact H | right; apply Qle_not_lt; exact H].
Defined.

#[global] Instance Qeq_decision (x y : Q) : Decision (x == y)%Q := Qeq_dec x y.

(** ** MaximumDrawdownPercentPerSecurity *)

Module Risk.

(** The object: its only attribute is the stored threshold. *)
Record MaximumDrawdownPercentPerSecurity := mk { maximumDrawdownPercent : Q }.

(** [__init__(self, maximumDrawdownPercent = 0.05)] *)
Definition __init__ (maximumDrawdownPercent : Q) : MaximumDrawdownPercentPerSecurity :=
  mk (- Qabs maximumDrawdownPercent)%Q.

Definition default_maximumDrawdownPercent : Q := (5 # 100)%Q.

(** The test of lines 37-41: the security is invested and its unrealized
    profit percentage is strictly below the stored threshold. *)
Definition breaches (self : MaximumDrawdownPercentPerSecurity) (security : Security.t) : bool :=
  Security.Invested security
  && bool_decide
       (SecurityHolding.UnrealizedProfitPercent (Security.Holdings security)
        < maximumDrawdownPercent self)%Q.

(** One turn of the loop over [algorithm.Securities], on the list the
    name [targets] is bound to. *)
Definition ManageRisk_step (self : MaximumDrawdownPercentPerSecurity)
    (targets : list PortfolioTarget.t) (kvp : Symbol * Security.t)
  : list PortfolioTarget.t :=
  let security := kvp.2 in
  if negb (Security.Invested security) then targets
  else
    let pnl := SecurityHolding.UnrealizedProfitPercent (Security.Holdings security) in
    if decide (pnl < maximumDrawdownPercent self)%Q then
      filter (λ x, PortfolioTarget.Symbol x ≠ Security.Symbol security) targets
      ++ [PortfolioTarget.mk (Security.Symbol security) 0%Q]
    else targets.

(** [ManageRisk(self, algorithm, targets)] on list values: the loop
    rebinds [targets] at each override and returns its last binding. *)
Definition ManageRisk (self : MaximumDrawdownPercentPerSecurity)
    (algorithm : QCAlgorithm) (targets : list PortfolioTarget.t)
  : list PortfolioTarget.t :=
  fold_left (ManageRisk_step self) (Securities algorithm) targets.

End Risk.

(** ** Objects and effects

    Python lists are objects: [targets.append(...)] changes the list that
    [targets] refers to, for every holder of a reference to it.  The store
    maps a reference to the current content of its list.  A run of a model
    also leaves a trace on the engine: the calls of [MarketOrder], in the
    order they were made. *)

Abbreviation ref := positive.

Module MarketOrderCall.
Record t := mk { Symbol : string; Quantity : Q }.
End MarketOrderCall.

Record world := mkWorld {
  algorithm : QCAlgorithm;
  submitted : list MarketOrderCall.t;
  store : gmap ref (list PortfolioTarget.t)
}.

Inductive exn := KeyError (symbol : Symbol).

Inductive outcome (A : Type) :=
| Return (a : A)
| Raise (e : exn).
Arguments Return {A} a.
Arguments Raise {A} e.

(** A computation runs on a world and ends normally with a value or with
    an exception; in both cases the effects made so far stay. *)
Definition M (A : Type) : Type := world → outcome A * world.

#[global] Instance M_ret : MRet M := λ A a w, (Return a, w).

#[global] Instance M_bind : MBind M := λ A B k m w,
  match m w with
  | (Return a, w') => k a w'
  | (Raise e, w') => (Raise e, w')
  end.

(** [for x in l: body(x)] *)
Fixpoint for_each {A} (l : list A) (body : A → M unit) : M unit :=
  match l with
  | [] => mret tt
  | x :: l' => body x ;; for_each l' body
  end.

(** [for x in l: v = body(v, x)], for a loop that rebinds a local [v]. *)
Fixpoint for_fold {A V} (l : list A) (body : V → A → M V) (v : V) : M V :=
  match l with
  | [] => mret v
  | x :: l' => v' ← body v x; for_fold l' body v'
  end.

(** Reading the engine. *)
Definition read_Securities : M (list (Symbol * Security.t)) :=
  λ w, (Return (Securities (algorithm w)), w).

Definition index_Securities (symbol : Symbol) : M Security.t :=
  λ w, match Securities_getitem (Securities (algorithm w)) symbol with
       | Some security => (Return security, w)
       | None => (Raise (KeyError symbol), w)
       end.

Definition call_GetOpenOrders (symbol : Symbol) : M (list Order.t) :=
  λ w, (Return (GetOpenOrders (algorithm w) symbol), w).

(** The engine's reaction to a submitted market order. *)
Class Brokerage := { MarketOrder : QCAlgorithm → Symbol → Q → QCAlgorithm }.

(** [algorithm.MarketOrder(symbol, quantity)]: the call is recorded and
    the engine reacts. *)
Definition call_MarketOrder `{Brokerage} (symbol : Symbol) (quantity : Q) : M unit :=
  λ w, (Return tt,
        mkWorld (MarketOrder (algorithm w) symbol quantity)
                (submitted w ++ [MarketOrderCall.mk symbol quantity])
                (store w)).

(** The content of the list a reference points to. *)
Definition deref (w : world) (r : ref) : list PortfolioTarget.t :=
  default [] (store w !! r).

(** [list(filter(f, targets))]: a new list object with the elements of
    [targets] that satisfy [f]. *)
Definition list_filter (P : PortfolioTarget.t → Prop) `{∀ x, Decision (P x)}
    (targets : ref) : M ref :=
  λ w, let r := fresh (dom (store w)) in
       (Return r,
        mkWorld (algorithm w) (submitted w)
                (<[r := filter P (deref w targets)]> (store w))).

(** [targets.append(x)]: the list object grows in place. *)
Definition list_append (targets : ref) (x : PortfolioTarget.t) : M unit :=
  λ w, (Return tt,
        mkWorld (algorithm w) (submitted w)
                (alter (λ l, l ++ [x]) targets (store w))).

Module RiskObj.
Import Risk.

(** One turn of the loop: [targets] is a reference, rebound to a new list
    object when the security breaches. *)
Definition ManageRisk_body (self : MaximumDrawdownPercentPerSecurity)
    (targets : ref) (kvp : Symbol * Security.t) : M ref :=
  let security := kvp.2 in
  if negb (Security.Invested security) then mret targets
  else
    let pnl := SecurityHolding.UnrealizedProfitPercent (Security.Holdings security) in
    if decide (pnl < maximumDrawdownPercent self)%Q then
      targets ← list_filter (λ x, PortfolioTarget.Symbol x ≠ Security.Symbol security) targets;
      list_append targets (PortfolioTarget.mk (Security.Symbol security) 0%Q);;
      mret targets
    else mret targets.

(** [ManageRisk(self, algorithm, targets)] on objects: the reference the
    loop last bound to [targets] is returned. *)
Definition ManageRisk (self : MaximumDrawdownPercentPerSecurity) (targets : ref) : M ref :=
  securities ← read_Securities;
  for_fold securities (ManageRisk_body self) targets.

(** [OnSecuritiesChanged(self, algorithm, changes)]: [pass] *)
Definition OnSecuritiesChanged {Changes : Type} (self : MaximumDrawdownPercentPerSecurity)
    (changes : Changes) : M unit :=
  mret tt.

End RiskObj.

(** ** ImmediateExecutionModel *)

Module Execution.

(** The quantity still to be ordered for [target] (lines 32-34), read off
    the engine's state; [None] when the symbol has no security. *)
Definition order_quantity `{Arithmetic} (algorithm : QCAlgorithm)
    (target : PortfolioTarget.t) : option Q :=
  let open_quantity :=
    pysum (map Order.Quantity (GetOpenOrders algorithm (PortfolioTarget.Symbol target))) in
  security ← Securities_getitem (Securities algorithm) (PortfolioTarget.Symbol target);
  let existing :=
    fadd (SecurityHolding.Quantity (Security.Holdings security)) open_quantity in
  Some (fsub (PortfolioTarget.Quantity target) existing).

(** The body of the loop of [Execute]. *)
Definition Execute_target `{Brokerage} `{Arithmetic} (target : PortfolioTarget.t) : M unit :=
  orders ← call_GetOpenOrders (PortfolioTarget.Symbol target);
  let open_quantity := pysum (map Order.Quantity orders) in
  security ← index_Securities (PortfolioTarget.Symbol target);
  let existing :=
    fadd (SecurityHolding.Quantity (Security.Holdings security)) open_quantity in
  let quantity := fsub (PortfolioTarget.Quantity target) existing in
  if decide (quantity == 0)%Q then mret tt
  else call_MarketOrder (PortfolioTarget.Symbol target) quantity.

(** [Execute(self, algorithm, targets)] *)
Definition Execute `{Brokerage} `{Arithmetic} (targets : list PortfolioTarget.t) : M unit :=
  for_each targets Execute_target.

(** [OnSecuritiesChanged(self, algorithm, changes)]: [pass] *)
Definition OnSecuritiesChanged {Changes : Type} (changes : Changes) : M unit :=
  mret tt.

(** The call of [MarketOrder] that the target at position [i] of [targets]
    causes, when [Execute] gets as far as that target: the engine is then
    in the state the targets before it have left. *)
Definition call_at `{Brokerage} `{Arithmetic} (targets : list PortfolioTarget.t) (w : world) (i : nat)
  : option MarketOrderCall.t :=
  target ← targets !! i;
  match Execute (take i targets) w with
  | (Return _, w_i) =>
      quantity ← order_quantity (algorithm w_i) target;
      if decide (quantity == 0)%Q then None
      else Some (MarketOrderCall.mk (PortfolioTarget.Symbol target) quantity)
  | (Raise _, _) => None
  end.

(** In the words of the specification, for comparison with [Execute]:
    every target's quantity is computed against one [snapshot] of holdings
    and open orders, taken before any order is placed. *)
Definition Execute_on_snapshot `{Brokerage} `{Arithmetic} (snapshot : QCAlgorithm)
    (targets : list PortfolioTarget.t) : M unit :=
  for_each targets
    (λ target,
       match order_quantity snapshot target with
       | Some quantity =>
           if decide (quantity == 0)%Q then mret tt
           else call_MarketOrder (PortfolioTarget.Symbol target) quantity
       | None => λ w, (Raise (KeyError (PortfolioTarget.Symbol target)), w)
       end).

(** Two engines.  [defer_orders] registers nothing while the model runs:
    what [Execute] reads stays as it was when the call began.
    [book_orders] holds every submitted order as an open order of its
    symbol. *)
Definition defer_orders : Brokerage :=
  {| MarketOrder := λ algorithm _ _, algorithm |}.

Definition book_orders : Brokerage :=
  {| MarketOrder := λ algorithm symbol quantity,
       mkAlgorithm (Securities algorithm)
                   (Transactions algorithm ++ [Order.mk symbol quantity]) |}.

End Execution.

(** ** Lists filtered by symbol *)

(** The targets of one symbol, in list order. *)
Definition targets_of (symbol : Symbol) (targets : list PortfolioTarget.t)
  : list PortfolioTarget.t :=
  filter (λ x, PortfolioTarget.Symbol x = symbol) targets.

(** The liquidation target [PortfolioTarget(symbol, 0)]. *)
Definition liquidation (symbol : Symbol) : PortfolioTarget.t :=
  PortfolioTarget.mk symbol 0%Q.

(** The symbols of the securities that breach, in the order the
    securities are enumerated. *)
Definition breaching (self : Risk.MaximumDrawdownPercentPerSecurity)
    (securities : list (Symbol * Security.t)) : list Symbol :=
  map (λ kvp, Security.Symbol kvp.2) (filter (λ kvp, Risk.breaches self kvp.2 = true) securities).

(** The targets whose symbol is not among [symbols], in list order. *)
Definition without (symbols : list Symbol) (targets : list PortfolioTarget.t)
  : list PortfolioTarget.t :=
  filter (λ x, PortfolioTarget.Symbol x ∉ symbols) targets.

(** ** OptionChainProviderAlgorithm

    [Algorithm.Python/OptionChainProviderAlgorithm.py], method [OnData]. *)

(** Python's [sorted(l, key = key)]: a stable sort that compares keys with
    [<].  Elements are inserted from the right, each one before the first
    element whose key is not smaller than its own, so that elements with
    equal keys keep their order. *)
Fixpoint sorted_insert {A K : Type} (key : A → K) (lt : K → K → Prop)
    `{∀ a b, Decision (lt a b)} (x : A) (l : list A) : list A :=
  match l with
  | [] => [x]
  | y :: l' =>
      if decide (lt (key y) (key x)) then y :: sorted_insert key lt x l'
      else x :: y :: l'
  end.

Definition sorted {A K : Type} (key : A → K) (lt : K → K → Prop)
    `{∀ a b, Decision (lt a b)} (l : list A) : list A :=
  foldr (sorted_insert key lt) [] l.

Module OptionChain.

Inductive OptionRight_t := Call | Put.

#[global] Instance OptionRight_eq_dec : EqDecision OptionRight_t.
Proof. solve_decision. Defined.

Inductive Resolution_t := Tick | Second | Minute | Hour | Daily.

(** [symbol.ID], as far as [OnData] reads it.  [Date] is a point in time,
    counted in microseconds as Python's [datetime] has it. *)
Record SecurityIdentifier := mkID {
  OptionRight : OptionRight_t;
  StrikePrice : Q;
  Date : Z
}.

Record Symbol_t := mkSymbol { Value : string; ID : SecurityIdentifier }.

(** [(a - b).days] of two points in time: whole days, rounded down. *)
Definition days (a b : Z) : Z := ((a - b) / 86400000000)%Z.

(** What [OnData] asks the engine: [self.Portfolio.Invested],
    [self.OptionChainProvider.GetOptionContractList(symbol, time)] and
    [self.Securities[symbol].Price], the last with no answer for a symbol
    that has no security. *)
Record QCAlgorithm := mkEngine {
  Portfolio_Invested : bool;
  GetOptionContractList : Symbol_t → Z → list Symbol_t;
  Securities_Price : Symbol_t → option Q
}.

(** The attributes of [self] that [OnData] uses: [self.equity.Symbol], set
    by [Initialize], and [self.underlyingPrice], unset until [OnData] first
    assigns it. *)
Record OptionChainProviderAlgorithm := mkSelf {
  equity_Symbol : Symbol_t;
  underlyingPrice : option Q
}.

(** The calls [OnData] makes on the engine. *)
Inductive call :=
| AddOptionContract (symbol : Symbol_t) (resolution : Resolution_t)
| MarketOrder (symbol : Symbol_t) (quantity : Q).

Inductive result :=
| Done
| KeyError (symbol : Symbol_t)
| IndexError.

(** The condition of the list comprehension, lines 56-58. *)
Definition is_otm_call `{Arithmetic} (price : Q) (time : Z) (i : Symbol_t) : Prop :=
  OptionRight (ID i) = Call
  ∧ (0 < fsub (StrikePrice (ID i)) price)%Q
  ∧ (10 < days (Date (ID i)) time)%Z ∧ (days (Date (ID i)) time < 30)%Z.

#[global] Instance is_otm_call_dec `{Arithmetic} price time i :
  Decision (is_otm_call price time i).
Proof. unfold is_otm_call. apply _. Defined.

(** [OnData(self, data)], [time] being [data.Time]: how it ends, [self]
    afterwards, and the calls it has made, in order. *)
Definition OnData `{Arithmetic} (self : OptionChainProviderAlgorithm)
    (algorithm : QCAlgorithm) (time : Z)
  : result * OptionChainProviderAlgorithm * list call :=
  if negb (Portfolio_Invested algorithm) then
    let contracts := GetOptionContractList algorithm (equity_Symbol self) time in
    match Securities_Price algorithm (equity_Symbol self) with
    | None => (KeyError (equity_Symbol self), self, [])
    | Some price =>
        let self := mkSelf (equity_Symbol self) (Some price) in
        let otm_calls := filter (is_otm_call price time) contracts in
        if decide (0 < length otm_calls) then
          match sorted (λ x, fsub (StrikePrice (ID x)) price) Qlt
                  (sorted (λ x, Date (ID x)) Z.lt otm_calls) with
          | contract :: _ =>
              (Done, self,
               [AddOptionContract contract Minute;
                MarketOrder contract (-1);
                MarketOrder (equity_Symbol self) 100])
          | [] => (IndexError, self, [])
          end
        else (Done, self, [])
    end
  else (Done, self, []).

End OptionChain.

(** ** Sample data *)

Module Sample.

Definition X : Symbol := "X"%string.
Definition Y : Symbol := "Y"%string.
Definition Z : Symbol := "Z"%string.

(** Invested at a loss of 6%: beyond a drawdown limit of 5%. *)
Definition security_X : Security.t :=
  Security.mk X true (SecurityHolding.mk 100 (-6 # 100)).

(** Invested at a loss of exactly 5%: at the limit, not beyond it. *)
Definition security_Y : Security.t :=
  Security.mk Y true (SecurityHolding.mk 100 (-5 # 100)).

(** Invested at a gain of 3%. *)
Definition security_Z : Security.t :=
  Security.mk Z true (SecurityHolding.mk 0 (3 # 100)).

Definition portfolio : QCAlgorithm :=
  mkAlgorithm [(X, security_X); (Y, security_Y); (Z, security_Z)] [].

(** Targets with a duplicate for [X]. *)
Definition wanted : list PortfolioTarget.t :=
  [PortfolioTarget.mk X 10; PortfolioTarget.mk Y 10;
   PortfolioTarget.mk X 4; PortfolioTarget.mk Z 7].

(** The caller's list is the object at reference 1. *)
Definition desk : world := mkWorld portfolio [] {[ 1%positive := wanted ]}.

(** One security [X] with the given holding and open orders. *)
Definition market (holding : Q) (orders : list Q) : world :=
  mkWorld
    (mkAlgorithm
       [(X, Security.mk X (negb (bool_decide (holding == 0)%Q))
              (SecurityHolding.mk holding 0))]
       (map (Order.mk X) orders))
    [] ∅.


(** Holdings of 100 in each of the three securities, no open orders. *)
Definition floor : world := mkWorld portfolio [] ∅.

(** One target for a symbol without a security, between two that have one. *)
Definition stray : list PortfolioTarget.t :=
  [PortfolioTarget.mk X 110; PortfolioTarget.mk "Q"%string 1; PortfolioTarget.mk Y 90].

(** Two securities beyond a limit of 5%, [X] and [W], enumerated in two
    orders. *)
Definition security_W : Security.t :=
  Security.mk "W"%string true (SecurityHolding.mk 40 (-10 # 100)).

Definition slump : QCAlgorithm :=
  mkAlgorithm [(X, security_X); (Y, security_Y); ("W"%string, security_W)] [].

Definition slump_reversed : QCAlgorithm :=
  mkAlgorithm [("W"%string, security_W); (Y, security_Y); (X, security_X)] [].

End Sample.

Module SampleChain.

(** An option chain on [AMZN] at 950, seen at midnight of day 0: strikes
    and expiries in days. *)
Definition AMZN : OptionChain.Symbol_t :=
  OptionChain.mkSymbol "AMZN"%string (OptionChain.mkID OptionChain.Call 0 0).

Definition option (name : string) (right : OptionChain.OptionRight_t)
    (strike : Q) (expiry : Z) : OptionChain.Symbol_t :=
  OptionChain.mkSymbol name (OptionChain.mkID right strike (expiry * 86400000000)%Z).

Definition chain : list OptionChain.Symbol_t :=
  [option "C970-25" OptionChain.Call 970 25;
   option "C960-18" OptionChain.Call 960 18;
   option "P960-12" OptionChain.Put 960 12;
   option "C940-12" OptionChain.Call 940 12;
   option "C960-12" OptionChain.Call 960 12;
   option "C955-40" OptionChain.Call 955 40;
   option "C955-10" OptionChain.Call 955 10].

Definition exchange : OptionChain.QCAlgorithm :=
  OptionChain.mkEngine false (λ _ _, chain)
    (λ symbol, if decide (OptionChain.Value symbol = "AMZN"%string) then Some 950%Q else None).

Definition strategy : OptionChain.OptionChainProviderAlgorithm :=
  OptionChain.mkSelf AMZN None.

End SampleChain.

(** Quantities at which float arithmetic rounds: 1e16, and the floats
    nearest to 0.1, 0.2 and 0.3. *)
Module SampleFloat.

Definition e16 : Q := 10000000000000000.
Definition f0_1 : Q := 3602879701896397 # 36028797018963968.
Definition f0_2 : Q := 3602879701896397 # 18014398509481984.
Definition f0_3 : Q := 5404319552844595 # 18014398509481984.

End SampleFloat.

(** * Properties of [ManageRisk] *)

Section ManageRisk_facts.
Import Risk.
Variable self : MaximumDrawdownPercentPerSecurity.

Lemma ManageRisk_step_breach targets kvp :
  breaches self kvp.2 = true →
  ManageRisk_step self targets kvp
  = filter (λ x, PortfolioTarget.Symbol x ≠ Security.Symbol kvp.2) targets
    ++ [liquidation (Security.Symbol kvp.2)].
Proof.
  unfold breaches, ManageRisk_step. intros [Hi Hb]%andb_prop.
  rewrite Hi. simpl. apply bool_decide_eq_true in Hb.
  destruct (decide _) as [_ | Hn]; [reflexivity | contradiction].
Qed.

Lemma ManageRisk_step_pass targets kvp :
  breaches self kvp.2 = false →
  ManageRisk_step self targets kvp = targets.
Proof.
  unfold breaches, ManageRisk_step. intros Hb.
  destruct (Security.Invested kvp.2); simpl in *; [| reflexivity].
  apply bool_decide_eq_false in Hb.
  destruct (decide _) as [Hlt | _]; [contradiction | reflexivity].
Qed.

Lemma targets_of_app symbol (l1 l2 : list PortfolioTarget.t) :
  targets_of symbol (l1 ++ l2) = targets_of symbol l1 ++ targets_of symbol l2.
Proof. apply filter_app. Qed.

Lemma targets_of_other symbol other :
  other ≠ symbol → targets_of symbol [liquidation other] = [].
Proof. intros Hne. unfold targets_of. rewrite filter_cons_False; [reflexivity | exact Hne]. Qed.

Lemma targets_of_liquidation symbol : targets_of symbol [liquidation symbol] = [liquidation symbol].
Proof. unfold targets_of. rewrite filter_cons_True; [reflexivity | reflexivity]. Qed.

Lemma targets_of_removed symbol targets :
  targets_of symbol (filter (λ x, PortfolioTarget.Symbol x ≠ symbol) targets) = [].
Proof.
  unfold targets_of. induction targets as [| x l IH]; [reflexivity |].
  destruct (decide (PortfolioTarget.Symbol x = symbol)) as [He | Hne].
  - rewrite (filter_cons_False _ x l); [exact IH | tauto].
  - rewrite (filter_cons_True _ x l); [| exact Hne].
    rewrite filter_cons_False; [exact IH | exact Hne].
Qed.

Lemma targets_of_kept symbol other targets :
  other ≠ symbol →
  targets_of symbol (filter (λ x, PortfolioTarget.Symbol x ≠ other) targets)
  = targets_of symbol targets.
Proof.
  intros Hne. unfold targets_of. induction targets as [| x l IH]; [reflexivity |].
  destruct (decide (PortfolioTarget.Symbol x = other)) as [He | Hn].
  - rewrite (filter_cons_False _ x l); [| tauto].
    rewrite (filter_cons_False _ x l); [exact IH | congruence].
  - rewrite (filter_cons_True _ x l); [| exact Hn].
    destruct (decide (PortfolioTarget.Symbol x = symbol)) as [Hs | Hs].
    + rewrite !filter_cons_True; [| exact Hs | exact Hs]. f_equal. exact IH.
    + rewrite !filter_cons_False; [| exact Hs | exact Hs]. exact IH.
Qed.

(** What one turn of the loop does to the targets of one symbol. *)
Lemma targets_of_step symbol targets kvp :
  targets_of symbol (ManageRisk_step self targets kvp)
  = if breaches self kvp.2 && bool_decide (Security.Symbol kvp.2 = symbol)
    then [liquidation symbol]
    else targets_of symbol targets.
Proof.
  destruct (breaches self kvp.2) eqn:Hb; simpl.
  - rewrite ManageRisk_step_breach; [| exact Hb].
    rewrite targets_of_app. case_bool_decide as Hs.
    + subst symbol. rewrite targets_of_removed, targets_of_liquidation. reflexivity.
    + rewrite targets_of_kept, targets_of_other; [apply app_nil_r | exact Hs | exact Hs].
  - rewrite ManageRisk_step_pass; [reflexivity | exact Hb].
Qed.

(** Securities that do not breach leave the targets of their symbol alone. *)
Lemma targets_of_fold_pass symbol securities targets :
  (∀ kvp, kvp ∈ securities → Security.Symbol kvp.2 = symbol → breaches self kvp.2 = false) →
  targets_of symbol (fold_left (ManageRisk_step self) securities targets)
  = targets_of symbol targets.
Proof.
  revert targets. induction securities as [| kvp l IH]; intros targets Hpass; [reflexivity |].
  simpl. rewrite IH.
  - rewrite targets_of_step.
    destruct (breaches self kvp.2) eqn:Hb; [| reflexivity].
    case_bool_decide as Hs; [| reflexivity].
    rewrite (Hpass kvp) in Hb; [discriminate | left | exact Hs].
  - intros kvp' Hin. apply Hpass. right. exact Hin.
Qed.

(** Once a symbol has its single liquidation target, the rest of the loop
    keeps it so. *)
Lemma targets_of_fold_liquidated symbol securities targets :
  targets_of symbol targets = [liquidation symbol] →
  targets_of symbol (fold_left (ManageRisk_step self) securities targets)
  = [liquidation symbol].
Proof.
  revert targets. induction securities as [| kvp l IH]; intros targets Hliq; [exact Hliq |].
  simpl. apply IH. rewrite targets_of_step.
  destruct (_ && _); [reflexivity | exact Hliq].
Qed.

Lemma targets_of_fold_breach securities targets kvp :
  kvp ∈ securities → breaches self kvp.2 = true →
  targets_of (Security.Symbol kvp.2) (fold_left (ManageRisk_step self) securities targets)
  = [liquidation (Security.Symbol kvp.2)].
Proof.
  intros Hin Hb. revert targets.
  induction Hin as [kvp l | kvp kvp' l Hin IH]; intros targets; simpl.
  - apply targets_of_fold_liquidated. rewrite targets_of_step, Hb.
    rewrite bool_decide_eq_true_2; reflexivity.
  - apply IH. exact Hb.
Qed.

Lemma breaching_cons kvp securities :
  breaching self (kvp :: securities)
  = if breaches self kvp.2 then Security.Symbol kvp.2 :: breaching self securities
    else breaching self securities.
Proof.
  unfold breaching. rewrite filter_cons.
  destruct (breaches self kvp.2); case_decide; try reflexivity; try congruence.
Qed.

Lemma breaching_app l1 l2 :
  breaching self (l1 ++ l2) = breaching self l1 ++ breaching self l2.
Proof. unfold breaching. rewrite filter_app. apply map_app. Qed.

Lemma breaching_symbol symbol securities :
  symbol ∈ breaching self securities ↔
  ∃ kvp, kvp ∈ securities ∧ Security.Symbol kvp.2 = symbol ∧ breaches self kvp.2 = true.
Proof.
  unfold breaching. rewrite list_elem_of_In, in_map_iff. split.
  - intros (kvp & Hs & Hin). apply list_elem_of_In, list_elem_of_filter in Hin.
    exists kvp. tauto.
  - intros (kvp & Hin & Hs & Hb). exists kvp. split; [exact Hs |].
    apply list_elem_of_In, list_elem_of_filter. tauto.
Qed.

Lemma without_nil targets : without [] targets = targets.
Proof.
  unfold without. induction targets as [| x l IH]; [reflexivity |].
  rewrite filter_cons_True; [f_equal; exact IH | apply not_elem_of_nil].
Qed.

Lemma without_app symbols (l1 l2 : list PortfolioTarget.t) :
  without symbols (l1 ++ l2) = without symbols l1 ++ without symbols l2.
Proof. apply filter_app. Qed.

Lemma without_cons symbol symbols targets :
  without symbols (filter (λ x, PortfolioTarget.Symbol x ≠ symbol) targets)
  = without (symbol :: symbols) targets.
Proof.
  unfold without. rewrite list_filter_filter. apply list_filter_iff.
  intros x. rewrite not_elem_of_cons. tauto.
Qed.

Lemma without_idemp symbols targets :
  without symbols (without symbols targets) = without symbols targets.
Proof. unfold without. apply list_filter_filter_l. tauto. Qed.

(** The loop acts on a list piecewise: from the part already there it only
    ever removes, and what it appends does not depend on that part. *)
Lemma fold_step_app securities (l1 l2 : list PortfolioTarget.t) :
  fold_left (ManageRisk_step self) securities (l1 ++ l2)
  = without (breaching self securities) l1
    ++ fold_left (ManageRisk_step self) securities l2.
Proof.
  revert l1 l2. induction securities as [| kvp l IH]; intros l1 l2; simpl.
  - rewrite without_nil. reflexivity.
  - rewrite breaching_cons. destruct (breaches self kvp.2) eqn:Hb.
    + rewrite !ManageRisk_step_breach; [| exact Hb | exact Hb].
      rewrite filter_app, <- app_assoc, IH, without_cons. reflexivity.
    + rewrite !ManageRisk_step_pass; [| exact Hb | exact Hb]. apply IH.
Qed.

Lemma fold_step_split securities targets :
  fold_left (ManageRisk_step self) securities targets
  = without (breaching self securities) targets
    ++ fold_left (ManageRisk_step self) securities [].
Proof. rewrite <- (app_nil_r targets) at 1. apply fold_step_app. Qed.

(** Whatever the loop appends is a liquidation target of a breaching symbol. *)
Lemma fold_step_appended securities x :
  x ∈ fold_left (ManageRisk_step self) securities [] →
  PortfolioTarget.Symbol x ∈ breaching self securities.
Proof.
  induction securities as [| kvp l IH] using rev_ind; simpl.
  - intros Hx. apply elem_of_nil in Hx. contradiction.
  - rewrite fold_left_app, breaching_app. simpl.
    rewrite breaching_cons. destruct (breaches self kvp.2) eqn:Hb.
    + rewrite ManageRisk_step_breach; [| exact Hb].
      rewrite !elem_of_app, list_elem_of_filter, list_elem_of_singleton.
      intros [[_ Hx] | ->]; [left; apply IH; exact Hx | right; left].
    + rewrite ManageRisk_step_pass; [| exact Hb].
      rewrite app_nil_r. exact IH.
Qed.

Lemma without_appended securities :
  without (breaching self securities) (fold_left (ManageRisk_step self) securities []) = [].
Proof.
  unfold without.
  destruct (filter _ _) as [| x l] eqn:Hf; [reflexivity |].
  assert (Hx : x ∈ filter (λ x, PortfolioTarget.Symbol x ∉ breaching self securities)
                 (fold_left (ManageRisk_step self) securities [])) by (rewrite Hf; left).
  apply list_elem_of_filter in Hx as [Hn Hx].
  apply fold_step_appended in Hx. contradiction.
Qed.

Lemma filter_liquidation symbol symbols :
  symbol ∉ symbols →
  filter (λ x, PortfolioTarget.Symbol x ≠ symbol) (map liquidation symbols)
  = map liquidation symbols.
Proof.
  induction symbols as [| s ss IH]; [reflexivity |].
  rewrite not_elem_of_cons. intros [Hne Hnin]. simpl.
  rewrite filter_cons_True; [f_equal; apply IH; exact Hnin | simpl; congruence].
Qed.

(** With one security per symbol, the loop appends the liquidation targets
    of the breaching securities in the order it meets them. *)
Lemma fold_step_nil securities :
  NoDup (map (λ kvp, Security.Symbol kvp.2) securities) →
  fold_left (ManageRisk_step self) securities []
  = map liquidation (breaching self securities).
Proof.
  induction securities as [| kvp l IH] using rev_ind; [reflexivity |].
  rewrite map_app, NoDup_app. intros (Hl & Hfresh & _).
  rewrite fold_left_app, breaching_app, map_app. simpl.
  rewrite breaching_cons, IH; [| exact Hl].
  destruct (breaches self kvp.2) eqn:Hb.
  - rewrite ManageRisk_step_breach; [| exact Hb]. f_equal.
    apply filter_liquidation. intros Hin.
    apply breaching_symbol in Hin as (kvp' & Hin & Hs & _).
    apply (Hfresh (Security.Symbol kvp.2)); [| left].
    apply list_elem_of_In, in_map_iff. exists kvp'.
    split; [exact Hs | apply list_elem_of_In; exact Hin].
  - rewrite ManageRisk_step_pass; [| exact Hb]. rewrite app_nil_r. reflexivity.
Qed.

End ManageRisk_facts.

(** Scenarios C and D of the specification, and the limit case. *)
Example ManageRisk_sample :
  Risk.ManageRisk (Risk.__init__ (5 # 100)) Sample.portfolio Sample.wanted
  = [PortfolioTarget.mk Sample.Y 10; PortfolioTarget.mk Sample.Z 7;
     PortfolioTarget.mk Sample.X 0].
Proof. reflexivity. Qed.

Lemma Qabs_opp_eq (x : Q) : Qabs (- x) = Qabs x.
Proof. destruct x as [n d]. simpl. f_equal. apply Z.abs_opp. Qed.

Lemma threshold_nonpositive (m : Q) :
  (Risk.maximumDrawdownPercent (Risk.__init__ m) <= 0)%Q.
Proof.
  simpl. apply (Qopp_le_compat 0 (Qabs m)). apply Qabs_nonneg.
Qed.

Lemma breaches_init (m : Q) (security : Security.t) :
  Risk.breaches (Risk.__init__ m) security = true ↔
  Security.Invested security = true
  ∧ (SecurityHolding.UnrealizedProfitPercent (Security.Holdings security) < - Qabs m)%Q.
Proof.
  unfold Risk.breaches. rewrite andb_true_iff, bool_decide_eq_true. reflexivity.
Qed.

(** C2. Whenever a security is invested and its unrealized profit
    percentage is strictly below [-|maximumDrawdownPercent|], the targets
    of its symbol in the list [ManageRisk] returns are exactly one target,
    of quantity 0: every target the input had for the symbol, however many
    and whatever their quantities, is gone. *)
Theorem ManageRisk_liquidates_breaching (m : Q) (algorithm : QCAlgorithm)
    (targets : list PortfolioTarget.t) (kvp : Symbol * Security.t) :
  kvp ∈ Securities algorithm →
  Security.Invested kvp.2 = true →
  (SecurityHolding.UnrealizedProfitPercent (Security.Holdings kvp.2) < - Qabs m)%Q →
  targets_of (Security.Symbol kvp.2) (Risk.ManageRisk (Risk.__init__ m) algorithm targets)
  = [PortfolioTarget.mk (Security.Symbol kvp.2) 0].
Proof.
  intros Hin Hinv Hlt. unfold Risk.ManageRisk.
  apply targets_of_fold_breach; [exact Hin |].
  apply breaches_init. split; assumption.
Qed.

Lemma ManageRisk_liquidates_breaching_witness :
  targets_of Sample.X
    (Risk.ManageRisk (Risk.__init__ (5 # 100)) Sample.portfolio Sample.wanted)
  = [PortfolioTarget.mk Sample.X 0].
Proof.
  apply (ManageRisk_liquidates_breaching (5 # 100) Sample.portfolio Sample.wanted
           (Sample.X, Sample.security_X)).
  - left.
  - reflexivity.
  - reflexivity.
Defined.

(** C3. A symbol none of whose securities is both invested and strictly
    below the threshold (its security is not invested, or its profit
    percentage is at or above [-|maximumDrawdownPercent|], or it has no
    security at all) keeps its targets: those of the returned list are
    those of the input, in the same order and with the same values. *)
Theorem ManageRisk_keeps_unbreached (m : Q) (algorithm : QCAlgorithm)
    (targets : list PortfolioTarget.t) (symbol : Symbol) :
  (∀ kvp, kvp ∈ Securities algorithm → Security.Symbol kvp.2 = symbol →
     Security.Invested kvp.2 = false
     ∨ (- Qabs m <= SecurityHolding.UnrealizedProfitPercent (Security.Holdings kvp.2))%Q) →
  targets_of symbol (Risk.ManageRisk (Risk.__init__ m) algorithm targets)
  = targets_of symbol targets.
Proof.
  intros Hpass. unfold Risk.ManageRisk. apply targets_of_fold_pass.
  intros kvp Hin Hs. apply not_true_is_false. rewrite breaches_init.
  intros [Hinv Hlt]. destruct (Hpass kvp Hin Hs) as [Hn | Hle].
  - congruence.
  - exact (Qlt_not_le _ _ Hlt Hle).
Qed.

(** At the limit: [security_Y] is at exactly -5%. *)
Lemma ManageRisk_keeps_unbreached_witness :
  targets_of Sample.Y
    (Risk.ManageRisk (Risk.__init__ (5 # 100)) Sample.portfolio Sample.wanted)
  = [PortfolioTarget.mk Sample.Y 10].
Proof.
  apply (ManageRisk_keeps_unbreached (5 # 100) Sample.portfolio Sample.wanted Sample.Y).
  intros kvp Hin Hs. right.
  apply elem_of_cons in Hin as [-> | Hin]; [discriminate Hs |].
  apply elem_of_cons in Hin as [-> | Hin]; [simpl; discriminate |].
  apply elem_of_cons in Hin as [-> | Hin]; [discriminate Hs |].
  apply elem_of_nil in Hin. contradiction.
Defined.

(** C4. For every constructor argument the stored threshold is
    [-|maximumDrawdownPercent|]; the constructor is total, and a negative
    argument gives the same object, hence the same [ManageRisk], as its
    positive counterpart. *)
Theorem init_normalizes (m : Q) :
  Risk.maximumDrawdownPercent (Risk.__init__ m) = (- Qabs m)%Q
  ∧ Risk.__init__ (- m) = Risk.__init__ m
  ∧ ∀ algorithm targets,
      Risk.ManageRisk (Risk.__init__ (- m)) algorithm targets
      = Risk.ManageRisk (Risk.__init__ m) algorithm targets.
Proof.
  assert (He : Risk.__init__ (- m) = Risk.__init__ m).
  { unfold Risk.__init__. rewrite Qabs_opp_eq. reflexivity. }
  split; [reflexivity |]. split; [exact He |].
  intros algorithm targets. rewrite He. reflexivity.
Qed.

(** C6. [ManageRisk] is idempotent: run on its own output with the same
    securities it returns that output, entry for entry and in the same
    order. *)
Theorem ManageRisk_idempotent (self : Risk.MaximumDrawdownPercentPerSecurity)
    (algorithm : QCAlgorithm) (targets : list PortfolioTarget.t) :
  Risk.ManageRisk self algorithm (Risk.ManageRisk self algorithm targets)
  = Risk.ManageRisk self algorithm targets.
Proof.
  unfold Risk.ManageRisk.
  rewrite (fold_step_split self _ targets), fold_step_app, without_idemp.
  f_equal. rewrite fold_step_split, without_appended. reflexivity.
Qed.

(** C9. The stored threshold is never positive, so a security whose
    unrealized profit percentage is 0 or more never breaches it: for a
    symbol all of whose securities are flat or in profit, [ManageRisk]
    injects no liquidation target and returns the symbol's targets as
    they were given, whatever the constructor argument. *)
Theorem ManageRisk_spares_profit (m : Q) (algorithm : QCAlgorithm)
    (targets : list PortfolioTarget.t) (symbol : Symbol) :
  (∀ kvp, kvp ∈ Securities algorithm → Security.Symbol kvp.2 = symbol →
     (0 <= SecurityHolding.UnrealizedProfitPercent (Security.Holdings kvp.2))%Q) →
  (Risk.maximumDrawdownPercent (Risk.__init__ m) <= 0)%Q
  ∧ (symbol ∉ breaching (Risk.__init__ m) (Securities algorithm))
  ∧ (targets_of symbol (Risk.ManageRisk (Risk.__init__ m) algorithm targets)
     = targets_of symbol targets).
Proof.
  intros Hprofit.
  assert (Hpass : ∀ kvp, kvp ∈ Securities algorithm → Security.Symbol kvp.2 = symbol →
                    Risk.breaches (Risk.__init__ m) kvp.2 = false).
  { intros kvp Hin Hs. apply not_true_is_false. rewrite breaches_init.
    intros [_ Hlt]. apply (Qlt_not_le _ _ Hlt).
    apply Qle_trans with 0%Q; [apply (threshold_nonpositive m) | exact (Hprofit kvp Hin Hs)]. }
  split; [apply threshold_nonpositive |]. split.
  - rewrite breaching_symbol. intros (kvp & Hin & Hs & Hb).
    rewrite (Hpass kvp Hin Hs) in Hb. discriminate.
  - unfold Risk.ManageRisk. apply targets_of_fold_pass. exact Hpass.
Qed.

Lemma ManageRisk_spares_profit_witness :
  (Risk.maximumDrawdownPercent (Risk.__init__ (5 # 100)) <= 0)%Q
  ∧ (Sample.Z ∉ breaching (Risk.__init__ (5 # 100)) (Securities Sample.portfolio))
  ∧ (targets_of Sample.Z
       (Risk.ManageRisk (Risk.__init__ (5 # 100)) Sample.portfolio Sample.wanted)
     = targets_of Sample.Z Sample.wanted).
Proof.
  apply (ManageRisk_spares_profit (5 # 100) Sample.portfolio Sample.wanted Sample.Z).
  intros kvp Hin Hs.
  apply elem_of_cons in Hin as [-> | Hin]; [discriminate Hs |].
  apply elem_of_cons in Hin as [-> | Hin]; [discriminate Hs |].
  apply elem_of_cons in Hin as [-> | Hin]; [simpl; discriminate |].
  apply elem_of_nil in Hin. contradiction.
Defined.

(** C10. The list [ManageRisk] returns is the input without the targets
    of the breaching symbols, in their input order, followed by the
    liquidation targets, one for each breaching security in the order
    the securities are enumerated (a dictionary holds one security per
    symbol). *)
Theorem ManageRisk_survivors_then_liquidations
    (self : Risk.MaximumDrawdownPercentPerSecurity)
    (algorithm : QCAlgorithm) (targets : list PortfolioTarget.t) :
  NoDup (map (λ kvp, Security.Symbol kvp.2) (Securities algorithm)) →
  Risk.ManageRisk self algorithm targets
  = without (breaching self (Securities algorithm)) targets
    ++ map liquidation (breaching self (Securities algorithm)).
Proof.
  intros Hdict. unfold Risk.ManageRisk.
  rewrite fold_step_split, fold_step_nil; [reflexivity | exact Hdict].
Qed.

Lemma ManageRisk_survivors_then_liquidations_witness :
  Risk.ManageRisk (Risk.__init__ (5 # 100)) Sample.portfolio Sample.wanted
  = without [Sample.X] Sample.wanted ++ [liquidation Sample.X].
Proof.
  apply (ManageRisk_survivors_then_liquidations
           (Risk.__init__ (5 # 100)) Sample.portfolio Sample.wanted).
  apply (bool_decide_eq_true_1 (NoDup [Sample.X; Sample.Y; Sample.Z])). reflexivity.
Defined.

(** ** [ManageRisk] on objects *)

Section ManageRisk_objects.
Import Risk.
Variable self : MaximumDrawdownPercentPerSecurity.

Lemma ManageRisk_body_pass targets kvp w :
  breaches self kvp.2 = false →
  RiskObj.ManageRisk_body self targets kvp w = (Return targets, w).
Proof.
  unfold breaches, RiskObj.ManageRisk_body. intros Hb.
  destruct (Security.Invested kvp.2); simpl in *; [| reflexivity].
  apply bool_decide_eq_false in Hb.
  destruct (decide _) as [Hlt | _]; [contradiction | reflexivity].
Qed.

Lemma ManageRisk_body_breach targets kvp w :
  breaches self kvp.2 = true →
  let r := fresh (dom (store w)) in
  RiskObj.ManageRisk_body self targets kvp w
  = (Return r,
     mkWorld (algorithm w) (submitted w)
       (alter (λ l, l ++ [liquidation (Security.Symbol kvp.2)]) r
          (<[r := filter (λ x, PortfolioTarget.Symbol x ≠ Security.Symbol kvp.2)
                    (deref w targets)]> (store w)))).
Proof.
  unfold breaches, RiskObj.ManageRisk_body. intros [Hi Hb]%andb_prop.
  rewrite Hi. simpl. apply bool_decide_eq_true in Hb.
  destruct (decide _) as [_ | Hn]; [reflexivity | contradiction].
Qed.

(** The loop on objects computes the loop on values, in a new list object
    as soon as one security breaches, and touches nothing that existed. *)
Lemma ManageRisk_loop securities targets content w :
  store w !! targets = Some content →
  ∃ r w',
    for_fold securities (RiskObj.ManageRisk_body self) targets w = (Return r, w')
    ∧ submitted w' = submitted w
    ∧ algorithm w' = algorithm w
    ∧ store w ⊆ store w'
    ∧ store w' !! r = Some (fold_left (ManageRisk_step self) securities content)
    ∧ match breaching self securities with
      | [] => r = targets ∧ w' = w
      | _ :: _ => r ∉ dom (store w)
      end.
Proof.
  revert targets content w.
  induction securities as [| kvp l IH]; intros targets content w Hcontent.
  - exists targets, w. simpl. repeat split; try reflexivity. exact Hcontent.
  - change (for_fold (kvp :: l) (RiskObj.ManageRisk_body self) targets w)
      with (match RiskObj.ManageRisk_body self targets kvp w with
            | (Return r, w1) => for_fold l (RiskObj.ManageRisk_body self) r w1
            | (Raise e, w1) => (Raise e, w1)
            end).
    rewrite breaching_cons. simpl fold_left.
    destruct (breaches self kvp.2) eqn:Hb.
    + rewrite ManageRisk_body_breach; [| exact Hb].
      rewrite ManageRisk_step_breach; [| exact Hb].
      set (r1 := fresh (dom (store w))).
      assert (Hfresh : store w !! r1 = None) by (apply not_elem_of_dom, is_fresh).
      unfold deref. rewrite Hcontent. simpl default.
      set (w1 := mkWorld _ _ _).
      assert (Hsub : store w ⊆ store w1).
      { apply map_subseteq_spec. intros i x Hi. simpl.
        assert (r1 ≠ i) by congruence.
        rewrite lookup_alter_ne, lookup_insert_ne; assumption. }
      destruct (IH r1 (filter (λ x, PortfolioTarget.Symbol x ≠ Security.Symbol kvp.2) content
                       ++ [liquidation (Security.Symbol kvp.2)]) w1)
        as (r & w' & Hrun & Hsubm & Halg & Hstore & Hr & Hfr).
      { simpl. rewrite lookup_alter_eq, lookup_insert_eq. reflexivity. }
      exists r, w'. split; [exact Hrun |]. split; [exact Hsubm |].
      split; [exact Halg |]. split; [etrans; eassumption |].
      split; [exact Hr |].
      destruct (breaching self l).
      * destruct Hfr as [-> _]. apply is_fresh.
      * intros Hin. apply Hfr. revert Hin. apply subseteq_dom. exact Hsub.
    + rewrite ManageRisk_body_pass; [| exact Hb].
      rewrite ManageRisk_step_pass; [| exact Hb].
      apply IH. exact Hcontent.
Qed.

End ManageRisk_objects.

(** C7. [ManageRisk] submits no order and leaves the engine as it was,
    and it never changes the list it was given: every list object that
    existed before the call, the caller's list among them, holds the same
    elements after it.  When a security breaches, the returned list is a
    new object; otherwise it is the caller's own list, returned as it is.
    The list returned holds what [ManageRisk] computes on values. *)
Theorem ManageRisk_leaves_input (self : Risk.MaximumDrawdownPercentPerSecurity)
    (targets : ref) (content : list PortfolioTarget.t) (w : world) :
  store w !! targets = Some content →
  ∃ r w',
    RiskObj.ManageRisk self targets w = (Return r, w')
    ∧ submitted w' = submitted w
    ∧ algorithm w' = algorithm w
    ∧ store w ⊆ store w'
    ∧ store w' !! targets = Some content
    ∧ store w' !! r = Some (Risk.ManageRisk self (algorithm w) content)
    ∧ match breaching self (Securities (algorithm w)) with
      | [] => r = targets ∧ w' = w
      | _ :: _ => r ∉ dom (store w)
      end.
Proof.
  intros Hcontent.
  destruct (ManageRisk_loop self (Securities (algorithm w)) targets content w Hcontent)
    as (r & w' & Hrun & Hsubm & Halg & Hstore & Hr & Hfr).
  exists r, w'. split; [exact Hrun |]. split; [exact Hsubm |].
  split; [exact Halg |]. split; [exact Hstore |].
  split; [exact (lookup_weaken _ _ _ _ Hcontent Hstore) |].
  split; [exact Hr | exact Hfr].
Qed.

(** * Properties of [Execute] *)

Section Execute_facts.
Import Execution.
Context `{Brokerage} `{Arithmetic}.

(** What [Execute] does for one target, read off the engine's state. *)
Lemma Execute_target_run target w :
  Execute_target target w
  = match order_quantity (algorithm w) target with
    | Some quantity =>
        if decide (quantity == 0)%Q then (Return tt, w)
        else (Return tt,
              mkWorld (MarketOrder (algorithm w) (PortfolioTarget.Symbol target) quantity)
                (submitted w ++ [MarketOrderCall.mk (PortfolioTarget.Symbol target) quantity])
                (store w))
    | None => (Raise (KeyError (PortfolioTarget.Symbol target)), w)
    end.
Proof.
  unfold Execute_target, order_quantity, index_Securities, call_GetOpenOrders.
  unfold mbind at 1 2, M_bind. simpl.
  destruct (Securities_getitem _ _) as [security |]; simpl; [| reflexivity].
  destruct (decide _); reflexivity.
Qed.

Lemma Execute_cons target targets w :
  Execute (target :: targets) w
  = match Execute_target target w with
    | (Return _, w1) => Execute targets w1
    | (Raise e, w1) => (Raise e, w1)
    end.
Proof. reflexivity. Qed.

Lemma Execute_app targets1 targets2 w :
  Execute (targets1 ++ targets2) w
  = match Execute targets1 w with
    | (Return _, w1) => Execute targets2 w1
    | (Raise e, w1) => (Raise e, w1)
    end.
Proof.
  revert w. induction targets1 as [| t l IH]; intros w; [reflexivity |].
  simpl app. rewrite !Execute_cons.
  destruct (Execute_target t w) as [[[] | e] w1]; [apply IH | reflexivity].
Qed.

Lemma Execute_single target w : Execute [target] w = Execute_target target w.
Proof.
  rewrite Execute_cons. destruct (Execute_target target w) as [[[] | e] w1]; reflexivity.
Qed.

(** When the targets before position [i] have run, [call_at] is the call
    of the target's own turn. *)
Lemma call_at_snoc_old targets target w i :
  i < length targets →
  call_at (targets ++ [target]) w i = call_at targets w i.
Proof.
  intros Hi. unfold call_at.
  rewrite lookup_app_l, take_app_le; [reflexivity | lia | exact Hi].
Qed.

Lemma call_at_snoc_new targets target w w1 quantity :
  Execute targets w = (Return tt, w1) →
  order_quantity (algorithm w1) target = Some quantity →
  ¬ (quantity == 0)%Q →
  call_at (targets ++ [target]) w (length targets)
  = Some (MarketOrderCall.mk (PortfolioTarget.Symbol target) quantity).
Proof.
  intros Hrun Hq Hnz. unfold call_at.
  rewrite list_lookup_middle, take_app_length; [| reflexivity]. simpl.
  rewrite Hrun, Hq. simpl. rewrite decide_False; [reflexivity | exact Hnz].
Qed.

(** The calls [Execute] makes, each with the position of the target that
    caused it; the positions increase along the calls. *)
Lemma Execute_calls targets w :
  ∃ positions calls,
    submitted (Execute targets w).2 = submitted w ++ calls
    ∧ StronglySorted lt positions
    ∧ Forall2 (λ i call, call_at targets w i = Some call) positions calls.
Proof.
  induction targets as [| target l IH] using rev_ind.
  - exists [], []. simpl. rewrite app_nil_r.
    split; [reflexivity |]. split; constructor.
  - destruct IH as (positions & calls & Hsub & Hsorted & Hcalls).
    assert (Hold : Forall2 (λ i call, call_at (l ++ [target]) w i = Some call)
                     positions calls).
    { apply (Forall2_impl _ _ _ _ Hcalls). intros i call Hcall.
      rewrite call_at_snoc_old; [exact Hcall |].
      unfold call_at in Hcall. destruct (l !! i) eqn:Hi; [| discriminate].
      exact (lookup_lt_Some _ _ _ Hi). }
    rewrite Execute_app.
    destruct (Execute l w) as [[[] | e] w1] eqn:Hrun; simpl in Hsub.
    + rewrite Execute_single, Execute_target_run.
      destruct (order_quantity (algorithm w1) target) as [quantity |] eqn:Hq.
      * destruct (decide (quantity == 0)%Q) as [Hz | Hnz].
        -- exists positions, calls. tauto.
        -- exists (positions ++ [length l]),
             (calls ++ [MarketOrderCall.mk (PortfolioTarget.Symbol target) quantity]).
           simpl. rewrite Hsub, <- app_assoc. split; [reflexivity |]. split.
           ++ apply StronglySorted_app_2; [| exact Hsorted | repeat constructor].
              intros i j Hi ->%list_elem_of_singleton.
              destruct (list_elem_of_lookup_1 _ _ Hi) as [k Hk].
              destruct (Forall2_lookup_l _ _ _ _ _ Hcalls Hk) as (call & _ & Hcall).
              unfold call_at in Hcall. destruct (l !! i) eqn:Hli; [| discriminate].
              exact (lookup_lt_Some _ _ _ Hli).
           ++ apply Forall2_app; [exact Hold |]. constructor; [| constructor].
              apply (call_at_snoc_new l target w w1 quantity Hrun Hq Hnz).
      * exists positions, calls. tauto.
    + exists positions, calls. tauto.
Qed.

End Execute_facts.

(** Scenarios A, B and E of the specification, in float arithmetic. *)
Example Execute_scenario_A :
  submitted (@Execution.Execute Execution.book_orders binary64
               [PortfolioTarget.mk Sample.X 150] (Sample.market 100 [])).2
  = [MarketOrderCall.mk Sample.X 50].
Proof. reflexivity. Qed.

Example Execute_scenario_B :
  @Execution.Execute Execution.book_orders binary64
    [PortfolioTarget.mk Sample.X 120] (Sample.market 100 [20%Q])
  = (Return tt, Sample.market 100 [20%Q]).
Proof. reflexivity. Qed.

Example Execute_scenario_E :
  @Execution.Execute Execution.book_orders binary64
    [PortfolioTarget.mk Sample.X 3] (Sample.market 0 [5%Q; (-2)%Q])
  = (Return tt, Sample.market 0 [5%Q; (-2)%Q]).
Proof. reflexivity. Qed.

(** Where floats round.  Holding 1e16 and one open order of 1.0: the sum
    is 1e16 again, and a target of 1e16 orders nothing.  Holding 0.1 and
    one open order of 0.2: the sum is above 0.3, and a target of 0.3
    orders [-2^-54]. *)
Example Execute_rounded_sum :
  @Execution.Execute Execution.book_orders binary64
    [PortfolioTarget.mk Sample.X SampleFloat.e16] (Sample.market SampleFloat.e16 [1%Q])
  = (Return tt, Sample.market SampleFloat.e16 [1%Q]).
Proof. reflexivity. Qed.

Example Execute_rounded_difference :
  submitted (@Execution.Execute Execution.book_orders binary64
               [PortfolioTarget.mk Sample.X SampleFloat.f0_3]
               (Sample.market SampleFloat.f0_1 [SampleFloat.f0_2])).2
  = [MarketOrderCall.mk Sample.X (-1 # 18014398509481984)].
Proof. reflexivity. Qed.

(** C1. When [Execute] comes to a target, it reads the holding of the
    target's symbol and the open orders of that symbol, and takes
    [delta = target.Quantity - (holding + sum of open orders)], the sum
    being taken from 0 in the order of the open orders and every [+] and
    [-] being the float operation.  If [delta] is not zero it makes exactly
    one call of [MarketOrder], for that symbol and with quantity [delta];
    if [delta] is zero it makes no call and goes on to the next target
    without raising. *)
Theorem Execute_orders_the_difference `{Brokerage} `{Arithmetic}
    (before after : list PortfolioTarget.t) (target : PortfolioTarget.t)
    (w w1 : world) (security : Security.t) :
  Execution.Execute before w = (Return tt, w1) →
  Securities_getitem (Securities (algorithm w1)) (PortfolioTarget.Symbol target)
  = Some security →
  let symbol := PortfolioTarget.Symbol target in
  let open_quantity :=
    fold_left fadd
      (map Order.Quantity
         (filter (λ x, Order.Symbol x = symbol) (Transactions (algorithm w1))))
      0%Q in
  let existing :=
    fadd (SecurityHolding.Quantity (Security.Holdings security)) open_quantity in
  let delta := fsub (PortfolioTarget.Quantity target) existing in
  ∃ w2,
    Execution.Execute (before ++ [target]) w = (Return tt, w2)
    ∧ Execution.Execute (before ++ target :: after) w = Execution.Execute after w2
    ∧ submitted w2
      = submitted w1
        ++ (if decide (delta == 0)%Q then [] else [MarketOrderCall.mk symbol delta])
    ∧ algorithm w2
      = (if decide (delta == 0)%Q then algorithm w1
         else MarketOrder (algorithm w1) symbol delta)
    ∧ store w2 = store w1.
Proof.
  intros Hrun Hsec symbol open_quantity existing delta.
  assert (Hq : Execution.order_quantity (algorithm w1) target = Some delta).
  { unfold Execution.order_quantity. rewrite Hsec. reflexivity. }
  assert (Hstep : ∃ w2, Execution.Execute_target target w1 = (Return tt, w2)
            ∧ submitted w2
              = submitted w1
                ++ (if decide (delta == 0)%Q then []
                    else [MarketOrderCall.mk symbol delta])
            ∧ algorithm w2
              = (if decide (delta == 0)%Q then algorithm w1
                 else MarketOrder (algorithm w1) symbol delta)
            ∧ store w2 = store w1).
  { rewrite Execute_target_run, Hq.
    destruct (decide (delta == 0)%Q); eexists; (split; [reflexivity |]); simpl.
    - rewrite app_nil_r. tauto.
    - tauto. }
  destruct Hstep as (w2 & Hstep & Hw2). exists w2.
  split; [| split; [| exact Hw2]].
  - rewrite Execute_app, Hrun, Execute_single. exact Hstep.
  - rewrite Execute_app, Hrun, Execute_cons, Hstep. reflexivity.
Qed.

(** Holding 100, open orders of 20 and -5, target 150: one order of 35. *)
Lemma Execute_orders_the_difference_witness :
  ∃ w2,
    @Execution.Execute Execution.book_orders binary64
      [PortfolioTarget.mk Sample.X 150] (Sample.market 100 [20%Q; (-5)%Q])
    = (Return tt, w2)
    ∧ submitted w2 = [MarketOrderCall.mk Sample.X 35].
Proof.
  destruct (@Execute_orders_the_difference Execution.book_orders binary64
              [] [] (PortfolioTarget.mk Sample.X 150)
              (Sample.market 100 [20%Q; (-5)%Q]) (Sample.market 100 [20%Q; (-5)%Q])
              (Security.mk Sample.X true (SecurityHolding.mk 100 0))
              eq_refl eq_refl)
    as (w2 & Hrun & _ & Hsubmitted & _).
  exists w2. split; [exact Hrun | exact Hsubmitted].
Defined.

(** An engine that registers nothing while [Execute] runs makes it work
    on a snapshot. *)
Lemma Execute_defer_orders `{Arithmetic} (snapshot : QCAlgorithm)
    (targets : list PortfolioTarget.t) (w : world) :
  algorithm w = snapshot →
  @Execution.Execute Execution.defer_orders _ targets w
  = @Execution.Execute_on_snapshot Execution.defer_orders _ snapshot targets w.
Proof.
  revert w. induction targets as [| t l IH]; intros w Hw; [reflexivity |].
  rewrite Execute_cons, Execute_target_run. unfold Execution.Execute_on_snapshot.
  simpl for_each. unfold mbind at 1, M_bind. rewrite Hw.
  destruct (Execution.order_quantity snapshot t) as [quantity |]; [| reflexivity].
  destruct (decide (quantity == 0)%Q); simpl; [apply IH; exact Hw |].
  rewrite Hw. apply IH. reflexivity.
Qed.

(** An engine that books a submitted order as an open order of its symbol:
    the next reading of that symbol counts it. *)
Lemma order_quantity_book_orders `{Arithmetic} (algorithm : QCAlgorithm) (quantity : Q)
    (target : PortfolioTarget.t) (security : Security.t) :
  Securities_getitem (Securities algorithm) (PortfolioTarget.Symbol target) = Some security →
  Execution.order_quantity
    (@MarketOrder Execution.book_orders algorithm (PortfolioTarget.Symbol target) quantity)
    target
  = Some (fsub (PortfolioTarget.Quantity target)
            (fadd (SecurityHolding.Quantity (Security.Holdings security))
               (fadd (pysum (map Order.Quantity
                               (GetOpenOrders algorithm (PortfolioTarget.Symbol target))))
                     quantity))).
Proof.
  intros Hsec. unfold Execution.order_quantity, GetOpenOrders. simpl.
  rewrite Hsec, filter_app, filter_cons_True, filter_nil; [| reflexivity].
  rewrite map_app. unfold pysum. rewrite fold_left_app. reflexivity.
Qed.




(** C8. [Execute] returns no value, and it makes its calls of
    [MarketOrder] in the order of the target list: the calls can be
    matched with positions of the list that increase strictly from one
    call to the next, each call being the one its position's target
    causes. *)
Theorem Execute_calls_in_target_order `{Brokerage} `{Arithmetic}
    (targets : list PortfolioTarget.t) (w : world) :
  ((Execution.Execute targets w).1 = Return tt
   ∨ ∃ e, (Execution.Execute targets w).1 = Raise e)
  ∧ ∃ positions calls,
      submitted (Execution.Execute targets w).2 = submitted w ++ calls
      ∧ StronglySorted lt positions
      ∧ Forall2 (λ i call, Execution.call_at targets w i = Some call) positions calls.
Proof.
  split; [| apply Execute_calls].
  destruct (Execution.Execute targets w) as [[[] | e] w']; simpl; eauto.
Qed.

Lemma ManageRisk_leaves_input_witness :
  ∃ r w',
    RiskObj.ManageRisk (Risk.__init__ (5 # 100)) 1%positive Sample.desk = (Return r, w')
    ∧ submitted w' = []
    ∧ store w' !! 1%positive = Some Sample.wanted
    ∧ r ≠ 1%positive.
Proof.
  destruct (ManageRisk_leaves_input (Risk.__init__ (5 # 100)) 1%positive
              Sample.wanted Sample.desk eq_refl)
    as (r & w' & Hrun & Hsubmitted & _ & _ & Hinput & _ & Hfresh).
  exists r, w'. split; [exact Hrun |]. split; [exact Hsubmitted |].
  split; [exact Hinput |].
  intros ->. apply Hfresh. apply elem_of_dom. exists Sample.wanted. reflexivity.
Defined.

(** * Further properties of [Execute] *)

(** A target whose symbol has no security stops [Execute] with a
    [KeyError] for that symbol: the orders of the targets before it stay
    submitted, the targets after it are not looked at. *)
Theorem Execute_missing_security `{Brokerage} `{Arithmetic}
    (before after : list PortfolioTarget.t) (target : PortfolioTarget.t)
    (w w1 : world) :
  Execution.Execute before w = (Return tt, w1) →
  Securities_getitem (Securities (algorithm w1)) (PortfolioTarget.Symbol target) = None →
  Execution.Execute (before ++ target :: after) w
  = (Raise (KeyError (PortfolioTarget.Symbol target)), w1).
Proof.
  intros Hrun Hnone.
  rewrite Execute_app, Hrun, Execute_cons, Execute_target_run.
  unfold Execution.order_quantity. rewrite Hnone. reflexivity.
Qed.

Lemma Execute_missing_security_witness :
  @Execution.Execute Execution.book_orders binary64 Sample.stray Sample.floor
  = (Raise (KeyError "Q"%string),
     mkWorld (mkAlgorithm (Securities Sample.portfolio) [Order.mk Sample.X 10])
       [MarketOrderCall.mk Sample.X 10] ∅).
Proof.
  apply (@Execute_missing_security Execution.book_orders binary64
           [PortfolioTarget.mk Sample.X 110] [PortfolioTarget.mk Sample.Y 90]
           (PortfolioTarget.mk "Q"%string 1) Sample.floor).
  - reflexivity.
  - reflexivity.
Defined.

(** [Execute] makes at most one call for each target, never for a
    quantity of zero and never for a symbol other than the target's: the
    calls it makes are, one for one and in order, for targets picked from
    the list without repetition. *)
Theorem Execute_calls_are_for_targets `{Brokerage} `{Arithmetic}
    (targets : list PortfolioTarget.t) (w : world) :
  ∃ served calls,
    submitted (Execution.Execute targets w).2 = submitted w ++ calls
    ∧ served `sublist_of` targets
    ∧ Forall2 (λ target call,
                 MarketOrderCall.Symbol call = PortfolioTarget.Symbol target
                 ∧ ¬ (MarketOrderCall.Quantity call == 0)%Q)
              served calls.
Proof.
  revert w. induction targets as [| t l IH]; intros w.
  - exists [], []. simpl. rewrite app_nil_r.
    split; [reflexivity |]. split; constructor.
  - rewrite Execute_cons, Execute_target_run.
    destruct (Execution.order_quantity (algorithm w) t) as [quantity |].
    + destruct (decide (quantity == 0)%Q) as [Hz | Hnz].
      * destruct (IH w) as (served & calls & Hsub & Hserved & Hall).
        exists served, calls. split; [exact Hsub |].
        split; [apply sublist_cons; exact Hserved | exact Hall].
      * set (w1 := mkWorld _ _ _).
        destruct (IH w1) as (served & calls & Hsub & Hserved & Hall).
        exists (t :: served),
          (MarketOrderCall.mk (PortfolioTarget.Symbol t) quantity :: calls).
        split; [rewrite Hsub; simpl; rewrite <- app_assoc; reflexivity |].
        split; [apply sublist_skip; exact Hserved |].
        constructor; [split; [reflexivity | exact Hnz] | exact Hall].
    + exists [], []. simpl. rewrite app_nil_r.
      split; [reflexivity |]. split; [apply sublist_nil_l | constructor].
Qed.

(** Executing a list in two parts, one call after the other, is executing
    it in one call: the second part starts in the world the first has
    left, and is not run when the first raises. *)
Theorem Execute_in_two_calls `{Brokerage} `{Arithmetic}
    (targets1 targets2 : list PortfolioTarget.t) (w : world) :
  Execution.Execute (targets1 ++ targets2) w
  = (Execution.Execute targets1;; Execution.Execute targets2) w.
Proof.
  rewrite Execute_app. unfold mbind at 1, M_bind.
  destruct (Execution.Execute targets1 w) as [[[] | e] w1]; reflexivity.
Qed.

(** When, for every target of the list, the difference [Execute] computes
    (the target's quantity minus the holding plus the sum of the open
    orders of its symbol, in float arithmetic) is zero, [Execute] makes no
    call, raises nothing and leaves the world as it is. *)
Theorem Execute_rests_on_met_targets `{Brokerage} `{Arithmetic}
    (targets : list PortfolioTarget.t) (w : world) :
  Forall (λ target,
            ∃ security,
              Securities_getitem (Securities (algorithm w)) (PortfolioTarget.Symbol target)
              = Some security
              ∧ (fsub (PortfolioTarget.Quantity target)
                   (fadd (SecurityHolding.Quantity (Security.Holdings security))
                      (fold_left fadd
                         (map Order.Quantity
                            (filter (λ x, Order.Symbol x = PortfolioTarget.Symbol target)
                               (Transactions (algorithm w))))
                         0%Q))
                 == 0)%Q)
         targets →
  Execution.Execute targets w = (Return tt, w).
Proof.
  induction 1 as [| t l (security & Hsec & Hzero) _ IH]; [reflexivity |].
  rewrite Execute_cons, Execute_target_run. unfold Execution.order_quantity.
  rewrite Hsec. simpl. rewrite decide_True; [exact IH | exact Hzero].
Qed.

(** Holding 1e16 and an open order of 1.0 meet a target of 1e16: the sum
    rounds to 1e16. *)
Lemma Execute_rests_on_met_targets_witness :
  @Execution.Execute Execution.book_orders binary64
    [PortfolioTarget.mk Sample.X SampleFloat.e16; PortfolioTarget.mk Sample.X SampleFloat.e16]
    (Sample.market SampleFloat.e16 [1%Q])
  = (Return tt, Sample.market SampleFloat.e16 [1%Q]).
Proof.
  apply (@Execute_rests_on_met_targets Execution.book_orders binary64).
  repeat constructor; (eexists; split; [reflexivity | reflexivity]).
Defined.

(** * Further properties of [ManageRisk] *)

Lemma fold_step_liquidations (self : Risk.MaximumDrawdownPercentPerSecurity)
    (securities : list (Symbol * Security.t)) (x : PortfolioTarget.t) :
  x ∈ fold_left (Risk.ManageRisk_step self) securities [] →
  x = liquidation (PortfolioTarget.Symbol x).
Proof.
  induction securities as [| kvp l IH] using rev_ind; simpl.
  - intros Hx. apply elem_of_nil in Hx. contradiction.
  - rewrite fold_left_app. simpl.
    destruct (Risk.breaches self kvp.2) eqn:Hb.
    + rewrite ManageRisk_step_breach; [| exact Hb].
      rewrite elem_of_app, list_elem_of_filter, list_elem_of_singleton.
      intros [[_ Hx] | ->]; [apply IH; exact Hx | reflexivity].
    + rewrite ManageRisk_step_pass; [exact IH | exact Hb].
Qed.

(** What is in the list [ManageRisk] returns: the input targets whose
    symbol does not breach, and for each breaching symbol its liquidation
    target; nothing else.  A target that is kept is kept with its
    quantity, and no target of another quantity is ever made up. *)
Theorem ManageRisk_elements (self : Risk.MaximumDrawdownPercentPerSecurity)
    (algorithm : QCAlgorithm) (targets : list PortfolioTarget.t)
    (x : PortfolioTarget.t) :
  x ∈ Risk.ManageRisk self algorithm targets
  ↔ (x ∈ targets ∧ PortfolioTarget.Symbol x ∉ breaching self (Securities algorithm))
    ∨ (PortfolioTarget.Symbol x ∈ breaching self (Securities algorithm)
       ∧ x = liquidation (PortfolioTarget.Symbol x)).
Proof.
  unfold Risk.ManageRisk. rewrite fold_step_split, elem_of_app.
  unfold without at 1. rewrite list_elem_of_filter. split.
  - intros [[Hn Hx] | Hx]; [left; tauto | right]. split.
    + apply (fold_step_appended self _ x Hx).
    + apply (fold_step_liquidations self _ x Hx).
  - intros [[Hx Hn] | [Hb Hx]]; [left; tauto | right].
    apply breaching_symbol in Hb as (kvp & Hin & Hs & Hb).
    pose proof (targets_of_fold_breach self (Securities algorithm) [] kvp Hin Hb) as Hone.
    rewrite Hs in Hone.
    assert (Hmem : liquidation (PortfolioTarget.Symbol x)
                   ∈ targets_of (PortfolioTarget.Symbol x)
                       (fold_left (Risk.ManageRisk_step self) (Securities algorithm) []))
      by (rewrite Hone; left).
    apply list_elem_of_filter in Hmem as [_ Hmem]. rewrite Hx. exact Hmem.
Qed.

(** A tighter limit liquidates whatever a looser limit does: a security
    that breaches the limit [m2] has its symbol liquidated under every
    limit [m1] that is no larger in absolute value. *)
Theorem ManageRisk_tighter_limit (m1 m2 : Q) (algorithm : QCAlgorithm)
    (targets : list PortfolioTarget.t) (kvp : Symbol * Security.t) :
  (Qabs m1 <= Qabs m2)%Q →
  kvp ∈ Securities algorithm →
  Risk.breaches (Risk.__init__ m2) kvp.2 = true →
  targets_of (Security.Symbol kvp.2) (Risk.ManageRisk (Risk.__init__ m1) algorithm targets)
  = [PortfolioTarget.mk (Security.Symbol kvp.2) 0].
Proof.
  intros Hle Hin Hb. unfold Risk.ManageRisk.
  apply targets_of_fold_breach; [exact Hin |].
  apply breaches_init in Hb as [Hinv Hlt]. apply breaches_init.
  split; [exact Hinv | lra].
Qed.

Lemma ManageRisk_tighter_limit_witness :
  targets_of Sample.X
    (Risk.ManageRisk (Risk.__init__ (5 # 100)) Sample.portfolio Sample.wanted)
  = [PortfolioTarget.mk Sample.X 0].
Proof.
  apply (ManageRisk_tighter_limit (5 # 100) (-11 # 200) Sample.portfolio Sample.wanted
           (Sample.X, Sample.security_X)).
  - discriminate.
  - left.
  - reflexivity.
Defined.

Lemma breaching_Permutation (self : Risk.MaximumDrawdownPercentPerSecurity)
    (securities1 securities2 : list (Symbol * Security.t)) :
  securities1 ≡ₚ securities2 →
  breaching self securities1 ≡ₚ breaching self securities2.
Proof.
  intros Hp. unfold breaching. apply Permutation_map. rewrite Hp. reflexivity.
Qed.

(** The order in which the securities dictionary is enumerated shows only
    in the order of the liquidation targets: two enumerations of the same
    securities, one security per symbol, keep the same input targets in
    the same order and append the same liquidation targets, in the order
    of each enumeration. *)
Theorem ManageRisk_enumeration_order (self : Risk.MaximumDrawdownPercentPerSecurity)
    (algorithm1 algorithm2 : QCAlgorithm) (targets : list PortfolioTarget.t) :
  Securities algorithm1 ≡ₚ Securities algorithm2 →
  NoDup (map (λ kvp, Security.Symbol kvp.2) (Securities algorithm1)) →
  Risk.ManageRisk self algorithm1 targets
  = without (breaching self (Securities algorithm1)) targets
    ++ map liquidation (breaching self (Securities algorithm1))
  ∧ Risk.ManageRisk self algorithm2 targets
    = without (breaching self (Securities algorithm1)) targets
      ++ map liquidation (breaching self (Securities algorithm2))
  ∧ breaching self (Securities algorithm1) ≡ₚ breaching self (Securities algorithm2).
Proof.
  intros Hp Hnd.
  assert (Hb := breaching_Permutation self _ _ Hp).
  assert (Hnd2 : NoDup (map (λ kvp, Security.Symbol kvp.2) (Securities algorithm2))).
  { rewrite <- (Permutation_map _ Hp). exact Hnd. }
  unfold Risk.ManageRisk. split; [| split; [| exact Hb]].
  - rewrite fold_step_split, fold_step_nil; [reflexivity | exact Hnd].
  - rewrite fold_step_split, fold_step_nil; [| exact Hnd2]. f_equal.
    unfold without. apply list_filter_iff. intros x. rewrite Hb. reflexivity.
Qed.

Lemma ManageRisk_enumeration_order_witness :
  Risk.ManageRisk (Risk.__init__ (5 # 100)) Sample.slump Sample.wanted
  = [PortfolioTarget.mk Sample.Y 10; PortfolioTarget.mk Sample.Z 7]
    ++ [liquidation Sample.X; liquidation "W"%string]
  ∧ Risk.ManageRisk (Risk.__init__ (5 # 100)) Sample.slump_reversed Sample.wanted
    = [PortfolioTarget.mk Sample.Y 10; PortfolioTarget.mk Sample.Z 7]
      ++ [liquidation "W"%string; liquidation Sample.X]
  ∧ [Sample.X; "W"%string] ≡ₚ ["W"%string; Sample.X].
Proof.
  apply (ManageRisk_enumeration_order (Risk.__init__ (5 # 100))
           Sample.slump Sample.slump_reversed Sample.wanted).
  - apply (reverse_Permutation [_; _; _]).
  - apply (bool_decide_eq_true_1 (NoDup [Sample.X; Sample.Y; "W"%string])). reflexivity.
Defined.

(** * Properties of [sorted] and of [OptionChainProviderAlgorithm.OnData] *)

Section sorted_facts.
Context {A K : Type} (key : A → K) (lt : K → K → Prop) `{∀ a b, Decision (lt a b)}.
Hypothesis lt_asym : ∀ a b, lt a b → ¬ lt b a.
Hypothesis lt_above : ∀ a b c, ¬ lt b a → ¬ lt c b → ¬ lt c a.

Lemma sorted_insert_elem x y l :
  y ∈ sorted_insert key lt x l ↔ y = x ∨ y ∈ l.
Proof.
  induction l as [| z l IH]; simpl.
  - rewrite list_elem_of_singleton, elem_of_nil. tauto.
  - destruct (decide _); rewrite !elem_of_cons; [rewrite IH |]; tauto.
Qed.

Lemma sorted_elem l y : y ∈ sorted key lt l ↔ y ∈ l.
Proof.
  induction l as [| x l IH]; simpl; [reflexivity |].
  rewrite sorted_insert_elem, elem_of_cons, IH. reflexivity.
Qed.

Lemma sorted_insert_length x l : length (sorted_insert key lt x l) = S (length l).
Proof.
  induction l as [| z l IH]; simpl; [reflexivity |].
  destruct (decide _); simpl; [rewrite IH |]; reflexivity.
Qed.

Lemma sorted_length l : length (sorted key lt l) = length l.
Proof.
  induction l as [| x l IH]; simpl; [reflexivity |].
  rewrite sorted_insert_length, IH. reflexivity.
Qed.

(** The result is in order: no element has a key smaller than that of an
    element before it. *)
Lemma sorted_insert_in_order x l :
  StronglySorted (λ a b, ¬ lt (key b) (key a)) l →
  StronglySorted (λ a b, ¬ lt (key b) (key a)) (sorted_insert key lt x l).
Proof using lt_asym lt_above.
  induction l as [| z l IH]; simpl; intros Hs.
  - repeat constructor.
  - apply StronglySorted_cons in Hs as [Hz Hl].
    destruct (decide (lt (key z) (key x))) as [Hlt | Hge].
    + apply StronglySorted_cons. split; [| apply IH; exact Hl].
      apply Forall_forall. intros y [-> | Hy]%sorted_insert_elem.
      * apply lt_asym. exact Hlt.
      * rewrite Forall_forall in Hz. apply Hz. exact Hy.
    + apply StronglySorted_cons. split.
      * apply Forall_cons. split; [exact Hge |].
        rewrite Forall_forall in Hz |- *. intros y Hy.
        apply (lt_above _ (key z)); [exact Hge | apply Hz; exact Hy].
      * apply StronglySorted_cons. split; assumption.
Qed.

Lemma sorted_in_order l :
  StronglySorted (λ a b, ¬ lt (key b) (key a)) (sorted key lt l).
Proof using lt_asym lt_above.
  induction l as [| x l IH]; simpl; [constructor |].
  apply sorted_insert_in_order. exact IH.
Qed.

(** The first element of the result is the first element of the input
    that has a least key. *)
Lemma sorted_first l h r :
  sorted key lt l = h :: r →
  ∃ l1 l2, l = l1 ++ h :: l2
           ∧ (∀ y, y ∈ l1 → lt (key h) (key y))
           ∧ (∀ y, y ∈ l2 → ¬ lt (key y) (key h)).
Proof using lt_asym lt_above.
  revert h r. induction l as [| x l IH]; intros h r; simpl; [discriminate |].
  destruct (sorted key lt l) as [| h' r'] eqn:Hl; simpl.
  - intros [= <- <-]. exists [], l.
    assert (l = []) as -> by (apply length_zero_iff_nil; rewrite <- sorted_length, Hl; reflexivity).
    split; [reflexivity |]. split; intros y Hy; apply elem_of_nil in Hy; contradiction.
  - destruct (IH h' r' eq_refl) as (l1 & l2 & -> & Hl1 & Hl2).
    destruct (decide (lt (key h') (key x))) as [Hlt | Hge]; intros [= <- <-].
    + exists (x :: l1), l2. split; [reflexivity |]. split; [| exact Hl2].
      intros y [-> | Hy]%elem_of_cons; [exact Hlt | apply Hl1; exact Hy].
    + exists [], (l1 ++ h' :: l2). split; [reflexivity |].
      split; [intros y Hy; apply elem_of_nil in Hy; contradiction |].
      intros y Hy. apply (lt_above _ (key h')); [exact Hge |].
      apply elem_of_app in Hy as [Hy | Hy].
      * apply lt_asym, Hl1. exact Hy.
      * apply elem_of_cons in Hy as [-> | Hy]; [| apply Hl2; exact Hy].
        intros Hirr. exact (lt_asym _ _ Hirr Hirr).
Qed.

End sorted_facts.

Lemma Zlt_asym (a b : Z) : (a < b)%Z → ¬ (b < a)%Z.
Proof. lia. Qed.

Lemma Zlt_above (a b c : Z) : ¬ (b < a)%Z → ¬ (c < b)%Z → ¬ (c < a)%Z.
Proof. lia. Qed.

Lemma Qlt_asym (a b : Q) : (a < b)%Q → ¬ (b < a)%Q.
Proof. intros Hab Hba. exact (Qlt_irrefl a (Qlt_trans _ _ _ Hab Hba)). Qed.

Lemma Qlt_above (a b c : Q) : ¬ (b < a)%Q → ¬ (c < b)%Q → ¬ (c < a)%Q.
Proof.
  intros Hab%Qnot_lt_le Hbc%Qnot_lt_le. apply Qle_not_lt.
  exact (Qle_trans _ _ _ Hab Hbc).
Qed.

Section OnData_facts.
Import OptionChain.
Context `{Arithmetic}.
Variables (self : OptionChainProviderAlgorithm) (algorithm : QCAlgorithm) (time : Z).

(** The contracts [OnData] chooses from, for a price of the underlying. *)
Let otm_calls (price : Q) : list Symbol_t :=
  filter (is_otm_call price time)
    (GetOptionContractList algorithm (equity_Symbol self) time).

(** When [OnData] makes a call at all, it has found the engine not
    invested and a price for the equity, and its first call names the
    head of the twice sorted list. *)
Lemma OnData_first_call r self' first rest :
  OnData self algorithm time = (r, self', first :: rest) →
  ∃ price contract tail,
    Portfolio_Invested algorithm = false
    ∧ Securities_Price algorithm (equity_Symbol self) = Some price
    ∧ sorted (λ x, fsub (StrikePrice (ID x)) price) Qlt
        (sorted (λ x, Date (ID x)) Z.lt (otm_calls price)) = contract :: tail
    ∧ r = Done
    ∧ self' = mkSelf (equity_Symbol self) (Some price)
    ∧ first = AddOptionContract contract Minute
    ∧ rest = [MarketOrder contract (-1); MarketOrder (equity_Symbol self) 100].
Proof.
  unfold OnData, otm_calls.
  destruct (Portfolio_Invested algorithm); simpl; [discriminate |].
  destruct (Securities_Price algorithm (equity_Symbol self)) as [price |]; [| discriminate].
  destruct (decide _); [| discriminate].
  destruct (sorted _ _ (sorted _ _ _)) as [| contract tail] eqn:Hs; [discriminate |].
  intros [= <- <- <- <-]. exists price, contract, tail. repeat split; reflexivity || exact Hs.
Qed.

(** The head of the twice sorted list has the least key of the second
    sort, the computed difference of strike and price, and comes first by
    date among the contracts that share that key with it. *)
Lemma OnData_chosen_first price contract tail :
  sorted (λ x, fsub (StrikePrice (ID x)) price) Qlt
    (sorted (λ x, Date (ID x)) Z.lt (otm_calls price)) = contract :: tail →
  ∃ l1 l2,
    sorted (λ x, Date (ID x)) Z.lt (otm_calls price) = l1 ++ contract :: l2
    ∧ (∀ y, y ∈ l1 →
         (fsub (StrikePrice (ID contract)) price < fsub (StrikePrice (ID y)) price)%Q)
    ∧ (∀ y, y ∈ l2 →
         (fsub (StrikePrice (ID contract)) price <= fsub (StrikePrice (ID y)) price)%Q
         ∧ (Date (ID contract) <= Date (ID y))%Z).
Proof.
  intros Hs.
  destruct (sorted_first _ Qlt Qlt_asym Qlt_above _ _ _ Hs) as (l1 & l2 & Hsplit & Hl1 & Hl2).
  exists l1, l2. split; [exact Hsplit |]. split.
  - intros y Hy. exact (Hl1 y Hy).
  - intros y Hy. split.
    + apply Qnot_lt_le. exact (Hl2 y Hy).
    + pose proof (sorted_in_order (λ x, Date (ID x)) Z.lt Zlt_asym Zlt_above
                    (otm_calls price)) as Hord.
      rewrite Hsplit in Hord.
      apply StronglySorted_app in Hord as (_ & _ & Hord).
      apply StronglySorted_cons in Hord as [Hord _].
      rewrite Forall_forall in Hord. specialize (Hord y Hy). simpl in Hord. lia.
Qed.

End OnData_facts.

(** Whenever [OnData] makes any call, it makes exactly three, in this
    order: it subscribes one contract at minute resolution, sells one of
    it and buys 100 of the equity.  The contract is one of the list the
    provider gave, a call, with its strike above the price of the equity
    and more than 10 and fewer than 30 whole days to its expiry; the
    engine was not invested, and [OnData] ends normally with the price
    stored in [self.underlyingPrice]. *)
Theorem OnData_trades_an_otm_call `{Arithmetic}
    (self self' : OptionChain.OptionChainProviderAlgorithm)
    (algorithm : OptionChain.QCAlgorithm) (time : Z)
    (r : OptionChain.result) (calls : list OptionChain.call) :
  OptionChain.OnData self algorithm time = (r, self', calls) →
  calls ≠ [] →
  ∃ price contract,
    calls = [OptionChain.AddOptionContract contract OptionChain.Minute;
             OptionChain.MarketOrder contract (-1);
             OptionChain.MarketOrder (OptionChain.equity_Symbol self) 100]
    ∧ contract ∈ OptionChain.GetOptionContractList algorithm
                   (OptionChain.equity_Symbol self) time
    ∧ OptionChain.Securities_Price algorithm (OptionChain.equity_Symbol self) = Some price
    ∧ OptionChain.is_otm_call price time contract
    ∧ OptionChain.Portfolio_Invested algorithm = false
    ∧ r = OptionChain.Done
    ∧ OptionChain.underlyingPrice self' = Some price.
Proof.
  intros Hrun Hcalls. destruct calls as [| first rest]; [contradiction |].
  destruct (OnData_first_call _ _ _ _ _ _ _ Hrun)
    as (price & contract & tail & Hinv & Hprice & Hs & -> & -> & -> & ->).
  exists price, contract.
  assert (Hin : contract ∈ filter (OptionChain.is_otm_call price time)
                  (OptionChain.GetOptionContractList algorithm
                     (OptionChain.equity_Symbol self) time)).
  { apply (sorted_elem (λ x, OptionChain.Date (OptionChain.ID x)) Z.lt).
    apply (sorted_elem (λ x, fsub (OptionChain.StrikePrice (OptionChain.ID x)) price) Qlt).
    rewrite Hs. left. }
  apply list_elem_of_filter in Hin as [Hotm Hin].
  repeat split; try reflexivity; try assumption; apply Hotm.
Qed.

Lemma OnData_trades_an_otm_call_witness :
  ∃ price contract,
    (@OptionChain.OnData binary64 SampleChain.strategy SampleChain.exchange 0).2
    = [OptionChain.AddOptionContract contract OptionChain.Minute;
       OptionChain.MarketOrder contract (-1);
       OptionChain.MarketOrder SampleChain.AMZN 100]
    ∧ contract ∈ SampleChain.chain
    ∧ price = 950%Q
    ∧ @OptionChain.is_otm_call binary64 price 0 contract.
Proof.
  destruct (@OnData_trades_an_otm_call binary64 SampleChain.strategy
              (@OptionChain.OnData binary64 SampleChain.strategy SampleChain.exchange 0).1.2
              SampleChain.exchange 0
              (@OptionChain.OnData binary64 SampleChain.strategy SampleChain.exchange 0).1.1
              (@OptionChain.OnData binary64 SampleChain.strategy SampleChain.exchange 0).2)
    as (price & contract & Hcalls & Hin & Hprice & Hotm & _).
  - reflexivity.
  - discriminate.
  - exists price, contract. split; [exact Hcalls |]. split; [exact Hin |].
    split; [| exact Hotm]. injection Hprice as <-. reflexivity.
Defined.

(** When the engine is not invested, has a price for the equity and the
    provider's list holds a call with its strike above that price and more
    than 10 and fewer than 30 whole days to expiry, [OnData] does trade:
    it ends normally, stores the price and makes its three calls for some
    contract.  [sorted(...)[0]] never fails. *)
Theorem OnData_trades_when_it_can `{Arithmetic}
    (self : OptionChain.OptionChainProviderAlgorithm)
    (algorithm : OptionChain.QCAlgorithm) (time : Z) (price : Q)
    (candidate : OptionChain.Symbol_t) :
  OptionChain.Portfolio_Invested algorithm = false →
  OptionChain.Securities_Price algorithm (OptionChain.equity_Symbol self) = Some price →
  candidate ∈ OptionChain.GetOptionContractList algorithm
                (OptionChain.equity_Symbol self) time →
  OptionChain.is_otm_call price time candidate →
  ∃ contract,
    OptionChain.OnData self algorithm time
    = (OptionChain.Done,
       OptionChain.mkSelf (OptionChain.equity_Symbol self) (Some price),
       [OptionChain.AddOptionContract contract OptionChain.Minute;
        OptionChain.MarketOrder contract (-1);
        OptionChain.MarketOrder (OptionChain.equity_Symbol self) 100]).
Proof.
  intros Hinv Hprice Hin Hotm. unfold OptionChain.OnData. rewrite Hinv, Hprice. simpl.
  set (otm_calls := filter _ _).
  assert (Hmem : candidate ∈ otm_calls) by (apply list_elem_of_filter; split; assumption).
  assert (Hlen : 0 < length otm_calls).
  { destruct otm_calls; [apply elem_of_nil in Hmem; contradiction | simpl; lia]. }
  rewrite decide_True; [| exact Hlen].
  destruct (sorted _ _ (sorted _ _ _)) as [| contract tail] eqn:Hs.
  - apply (f_equal length) in Hs. rewrite !sorted_length in Hs. simpl in Hs. lia.
  - exists contract. reflexivity.
Qed.

Lemma OnData_trades_when_it_can_witness :
  ∃ contract,
    @OptionChain.OnData binary64 SampleChain.strategy SampleChain.exchange 0
    = (OptionChain.Done,
       OptionChain.mkSelf SampleChain.AMZN (Some 950%Q),
       [OptionChain.AddOptionContract contract OptionChain.Minute;
        OptionChain.MarketOrder contract (-1);
        OptionChain.MarketOrder SampleChain.AMZN 100]).
Proof.
  apply (@OnData_trades_when_it_can binary64 SampleChain.strategy SampleChain.exchange 0 950
           (SampleChain.option "C970-25" OptionChain.Call 970 25)).
  - reflexivity.
  - reflexivity.
  - left.
  - apply (bool_decide_eq_true_1
             (@OptionChain.is_otm_call binary64 950 0
                (SampleChain.option "C970-25" OptionChain.Call 970 25))).
    reflexivity.
Defined.

(** The contract [OnData] trades is the one the sort puts first: of all
    the calls it could choose from, none has a smaller difference of
    strike and price as [OnData] computes it, in float arithmetic.  (Two
    strikes can round to the same difference; the sort then does not tell
    them apart.) *)
Theorem OnData_least_strike `{Arithmetic}
    (self self' : OptionChain.OptionChainProviderAlgorithm)
    (algorithm : OptionChain.QCAlgorithm) (time : Z) (r : OptionChain.result)
    (contract other : OptionChain.Symbol_t) (resolution : OptionChain.Resolution_t)
    (rest : list OptionChain.call) (price : Q) :
  OptionChain.OnData self algorithm time
  = (r, self', OptionChain.AddOptionContract contract resolution :: rest) →
  OptionChain.Securities_Price algorithm (OptionChain.equity_Symbol self) = Some price →
  other ∈ OptionChain.GetOptionContractList algorithm (OptionChain.equity_Symbol self) time →
  OptionChain.is_otm_call price time other →
  (fsub (OptionChain.StrikePrice (OptionChain.ID contract)) price
   <= fsub (OptionChain.StrikePrice (OptionChain.ID other)) price)%Q.
Proof.
  intros Hrun Hprice Hin Hotm.
  destruct (OnData_first_call _ _ _ _ _ _ _ Hrun)
    as (price' & contract' & tail & _ & Hprice' & Hs & _ & _ & [= <- _] & _).
  rewrite Hprice in Hprice'. injection Hprice' as <-.
  destruct (OnData_chosen_first _ _ _ _ _ _ Hs) as (l1 & l2 & Hsplit & Hl1 & Hl2).
  assert (Hmem : other ∈ l1 ++ contract :: l2).
  { rewrite <- Hsplit. apply sorted_elem, list_elem_of_filter. split; assumption. }
  apply elem_of_app in Hmem as [Hmem | Hmem].
  - apply Qlt_le_weak, Hl1. exact Hmem.
  - apply elem_of_cons in Hmem as [-> | Hmem]; [apply Qle_refl | apply Hl2; exact Hmem].
Qed.

Lemma OnData_least_strike_witness :
  (@fsub binary64 960 950 <= @fsub binary64 970 950)%Q.
Proof.
  apply (@OnData_least_strike binary64 SampleChain.strategy
           (@OptionChain.OnData binary64 SampleChain.strategy SampleChain.exchange 0).1.2
           SampleChain.exchange 0 OptionChain.Done
           (SampleChain.option "C960-12" OptionChain.Call 960 12)
           (SampleChain.option "C970-25" OptionChain.Call 970 25)
           OptionChain.Minute
           [OptionChain.MarketOrder (SampleChain.option "C960-12" OptionChain.Call 960 12) (-1);
            OptionChain.MarketOrder SampleChain.AMZN 100]
           950).
  - reflexivity.
  - reflexivity.
  - left.
  - apply (bool_decide_eq_true_1
             (@OptionChain.is_otm_call binary64 950 0
                (SampleChain.option "C970-25" OptionChain.Call 970 25))).
    reflexivity.
Defined.

(** Among the calls it could choose from that have the strike of the
    contract it trades, [OnData] trades one that expires first. *)
Theorem OnData_earliest_expiry `{Arithmetic}
    (self self' : OptionChain.OptionChainProviderAlgorithm)
    (algorithm : OptionChain.QCAlgorithm) (time : Z) (r : OptionChain.result)
    (contract other : OptionChain.Symbol_t) (resolution : OptionChain.Resolution_t)
    (rest : list OptionChain.call) (price : Q) :
  OptionChain.OnData self algorithm time
  = (r, self', OptionChain.AddOptionContract contract resolution :: rest) →
  OptionChain.Securities_Price algorithm (OptionChain.equity_Symbol self) = Some price →
  other ∈ OptionChain.GetOptionContractList algorithm (OptionChain.equity_Symbol self) time →
  OptionChain.is_otm_call price time other →
  (OptionChain.StrikePrice (OptionChain.ID other)
   == OptionChain.StrikePrice (OptionChain.ID contract))%Q →
  (OptionChain.Date (OptionChain.ID contract)
   <= OptionChain.Date (OptionChain.ID other))%Z.
Proof.
  intros Hrun Hprice Hin Hotm Hsame.
  destruct (OnData_first_call _ _ _ _ _ _ _ Hrun)
    as (price' & contract' & tail & _ & Hprice' & Hs & _ & _ & [= <- _] & _).
  rewrite Hprice in Hprice'. injection Hprice' as <-.
  destruct (OnData_chosen_first _ _ _ _ _ _ Hs) as (l1 & l2 & Hsplit & Hl1 & Hl2).
  assert (Hmem : other ∈ l1 ++ contract :: l2).
  { rewrite <- Hsplit. apply sorted_elem, list_elem_of_filter. split; assumption. }
  apply elem_of_app in Hmem as [Hmem | Hmem].
  - specialize (Hl1 other Hmem).
    pose proof (fsub_compat _ _ price price Hsame (Qeq_refl price)) as Hkey.
    rewrite Hkey in Hl1. destruct (Qlt_irrefl _ Hl1).
  - apply elem_of_cons in Hmem as [-> | Hmem]; [lia | apply Hl2; exact Hmem].
Qed.

Lemma OnData_earliest_expiry_witness :
  (12 * 86400000000 <= 18 * 86400000000)%Z.
Proof.
  apply (@OnData_earliest_expiry binary64 SampleChain.strategy
           (@OptionChain.OnData binary64 SampleChain.strategy SampleChain.exchange 0).1.2
           SampleChain.exchange 0 OptionChain.Done
           (SampleChain.option "C960-12" OptionChain.Call 960 12)
           (SampleChain.option "C960-18" OptionChain.Call 960 18)
           OptionChain.Minute
           [OptionChain.MarketOrder (SampleChain.option "C960-12" OptionChain.Call 960 12) (-1);
            OptionChain.MarketOrder SampleChain.AMZN 100]
           950).
  - reflexivity.
  - reflexivity.
  - right. left.
  - apply (bool_decide_eq_true_1
             (@OptionChain.is_otm_call binary64 950 0
                (SampleChain.option "C960-18" OptionChain.Call 960 18))).
    reflexivity.
  - reflexivity.
Defined.

Lemma days_window (date time : Z) :
  (10 < OptionChain.days date time)%Z ∧ (OptionChain.days date time < 30)%Z ↔
  (11 * 86400000000 <= date - time)%Z ∧ (date - time < 30 * 86400000000)%Z.
Proof.
  unfold OptionChain.days.
  pose proof (Z.div_mod (date - time) 86400000000 ltac:(lia)) as Hdm.
  pose proof (Z.mod_pos_bound (date - time) 86400000000 ltac:(lia)) as Hb.
  lia.
Qed.

(** The contract [OnData] trades expires at least 11 full days and less
    than 30 full days after [data.Time]: the whole days of the difference
    are rounded down before they are compared with 10 and 30. *)
Theorem OnData_expiry_window `{Arithmetic}
    (self self' : OptionChain.OptionChainProviderAlgorithm)
    (algorithm : OptionChain.QCAlgorithm) (time : Z) (r : OptionChain.result)
    (contract : OptionChain.Symbol_t) (resolution : OptionChain.Resolution_t)
    (rest : list OptionChain.call) :
  OptionChain.OnData self algorithm time
  = (r, self', OptionChain.AddOptionContract contract resolution :: rest) →
  (11 * 86400000000 <= OptionChain.Date (OptionChain.ID contract) - time)%Z
  ∧ (OptionChain.Date (OptionChain.ID contract) - time < 30 * 86400000000)%Z.
Proof.
  intros Hrun.
  destruct (OnData_first_call _ _ _ _ _ _ _ Hrun)
    as (price & contract' & tail & _ & _ & Hs & _ & _ & [= <- _] & _).
  assert (Hin : contract ∈ filter (OptionChain.is_otm_call price time)
                  (OptionChain.GetOptionContractList algorithm
                     (OptionChain.equity_Symbol self) time)).
  { apply (sorted_elem (λ x, OptionChain.Date (OptionChain.ID x)) Z.lt).
    apply (sorted_elem (λ x, fsub (OptionChain.StrikePrice (OptionChain.ID x)) price) Qlt).
    rewrite Hs. left. }
  apply list_elem_of_filter in Hin as [(_ & _ & Hdays) _].
  apply days_window. exact Hdays.
Qed.

Lemma OnData_expiry_window_witness :
  (11 * 86400000000 <= 12 * 86400000000 - 0)%Z
  ∧ (12 * 86400000000 - 0 < 30 * 86400000000)%Z.
Proof.
  apply (@OnData_expiry_window binary64 SampleChain.strategy
           (@OptionChain.OnData binary64 SampleChain.strategy SampleChain.exchange 0).1.2
           SampleChain.exchange 0 OptionChain.Done
           (SampleChain.option "C960-12" OptionChain.Call 960 12)
           OptionChain.Minute
           [OptionChain.MarketOrder (SampleChain.option "C960-12" OptionChain.Call 960 12) (-1);
            OptionChain.MarketOrder SampleChain.AMZN 100]).
  reflexivity.
Defined.
